(** * bestbets-loader: the category-to-match transformer and the Elasticsearch loader

    A shallow embedding of
      - [lib/transformers/category-to-match-transformer.js]
      - [lib/loaders/elastic-bestbets-loader.js]
    and the properties of them that the specification states.

    JavaScript values are embedded as [jsval]; plain objects used as
    dictionaries ([tokenCache], [fetchQueue], the [lookup] table) as
    [gmap string jsval] holding their own properties, read through
    [obj_get], which falls back on [Object.prototype] as the language does.
    Asynchronous code is embedded as a labelled transition system: a call
    runs up to its first [await] in one step, and each later step is the
    arrival of what it was waiting for. *)

From Stdlib Require Import ZArith.
From stdpp Require Import base tactics option list gmap strings pretty.

(** ** JavaScript values

    Numbers are the integers and [NaN]: the code tests numbers for
    truthiness and for [<= 0] and counts tokens, nothing else. *)

Module JS.

#[warnings="-register-all"]
Inductive jsval :=
| JUndefined
| JNull
| JBool (b : bool)
| JNumber (n : Z)
| JNaN
| JString (s : string)
| JArray (elems : list jsval)
| JObject (props : list (string * jsval))
| JFunction (name : string).

(** [ToBoolean]: what [if (v)], [!v] and [&&] test. *)
Definition truthy (v : jsval) : bool :=
  match v with
  | JUndefined | JNull | JNaN => false
  | JBool b => b
  | JNumber n => negb (n =? 0)%Z
  | JString s => negb (String.eqb s "")
  | JArray _ | JObject _ | JFunction _ => true
  end.

Definition typeof (v : jsval) : string :=
  match v with
  | JUndefined => "undefined"
  | JNull | JArray _ | JObject _ => "object"
  | JBool _ => "boolean"
  | JNumber _ | JNaN => "number"
  | JString _ => "string"
  | JFunction _ => "function"
  end.

(** The members every plain object inherits from [Object.prototype]. *)
Definition ObjectPrototype_methods : list string :=
  [ "constructor"; "hasOwnProperty"; "isPrototypeOf"; "propertyIsEnumerable";
    "toLocaleString"; "toString"; "valueOf";
    "__defineGetter__"; "__defineSetter__"; "__lookupGetter__"; "__lookupSetter__" ].

Definition ObjectPrototype_get (k : string) : jsval :=
  if bool_decide (k ∈ ObjectPrototype_methods) then JFunction k
  else if bool_decide (k = "__proto__") then JObject []
  else JUndefined.

(** [o[k]] on a plain object whose own properties are [o]. *)
Definition obj_get (o : gmap string jsval) (k : string) : jsval :=
  match o !! k with
  | Some v => v
  | None => ObjectPrototype_get k
  end.

Definition is_primitive (v : jsval) : bool :=
  match v with
  | JArray _ | JObject _ | JFunction _ => false
  | _ => true
  end.

(** [o[k] = v] on a plain object. Assigning a primitive to ["__proto__"]
    runs the inherited setter, which ignores it; the transformer only ever
    assigns numbers and booleans. *)
Definition obj_set (o : gmap string jsval) (k : string) (v : jsval) : gmap string jsval :=
  if bool_decide (k = "__proto__") && is_primitive v then o else <[k := v]> o.

(** A settled promise, or the result of a call that may throw: the value,
    or the message of the [Error]. *)
Inductive result (A : Type) :=
| Ok (a : A)
| Err (message : string).
Arguments Ok {A} a.
Arguments Err {A} message.

Definition bind {A B} (r : result A) (k : A → result B) : result B :=
  match r with
  | Ok a => k a
  | Err m => Err m
  end.

(** The own property [k] of an object literal or parsed JSON object. *)
Fixpoint own_property (props : list (string * jsval)) (k : string) : option jsval :=
  match props with
  | [] => None
  | (k', v) :: props' => if bool_decide (k' = k) then Some v else own_property props' k
  end.

(** [v[k]]: a [TypeError] on [undefined] and [null], the own or inherited
    property on an object; [builtin] stands for what the prototypes of
    arrays, strings, numbers, booleans and functions give. *)
Definition js_get (builtin : jsval → string → jsval) (v : jsval) (k : string) : result jsval :=
  match v with
  | JUndefined => Err ("Cannot read property '" +:+ k +:+ "' of undefined")
  | JNull => Err ("Cannot read property '" +:+ k +:+ "' of null")
  | JObject props =>
      Ok (match own_property props k with
          | Some x => x
          | None => ObjectPrototype_get k
          end)
  | _ => Ok (builtin v k)
  end.

(** [String.prototype.toLowerCase] on the ASCII range. *)
Definition ascii_toLowerCase (c : Ascii.ascii) : Ascii.ascii :=
  let n := Ascii.nat_of_ascii c in
  if (65 <=? n)%nat && (n <=? 90)%nat then Ascii.ascii_of_nat (n + 32) else c.

Fixpoint ascii_lower (s : string) : string :=
  match s with
  | EmptyString => EmptyString
  | String c s' => String (ascii_toLowerCase c) (ascii_lower s')
  end.

End JS.
Import JS.

(** ** The configuration object of a pipeline step *)

Module Config.
Record t := {
  eshosts : jsval;
  daysToKeep : jsval;
  minIndexesToKeep : jsval;
  aliasName : jsval;
  mappingPath : jsval;
  settingsPath : jsval;
  analyzer : jsval;
  socketLimit : jsval
}.

(** [{...config, eshosts: undefined}] and the like: the configuration
    with one option left out. *)
Definition without_eshosts (c : t) : t :=
  {| eshosts := JUndefined; daysToKeep := daysToKeep c;
     minIndexesToKeep := minIndexesToKeep c; aliasName := aliasName c;
     mappingPath := mappingPath c; settingsPath := settingsPath c;
     analyzer := analyzer c; socketLimit := socketLimit c |}.

Definition with_eshosts (v : jsval) (c : t) : t :=
  {| eshosts := v; daysToKeep := daysToKeep c;
     minIndexesToKeep := minIndexesToKeep c; aliasName := aliasName c;
     mappingPath := mappingPath c; settingsPath := settingsPath c;
     analyzer := analyzer c; socketLimit := socketLimit c |}.

Definition without_aliasName (c : t) : t :=
  {| eshosts := eshosts c; daysToKeep := daysToKeep c;
     minIndexesToKeep := minIndexesToKeep c; aliasName := JUndefined;
     mappingPath := mappingPath c; settingsPath := settingsPath c;
     analyzer := analyzer c; socketLimit := socketLimit c |}.

Definition without_mappingPath (c : t) : t :=
  {| eshosts := eshosts c; daysToKeep := daysToKeep c;
     minIndexesToKeep := minIndexesToKeep c; aliasName := aliasName c;
     mappingPath := JUndefined; settingsPath := settingsPath c;
     analyzer := analyzer c; socketLimit := socketLimit c |}.

Definition with_settingsPath (v : jsval) (c : t) : t :=
  {| eshosts := eshosts c; daysToKeep := daysToKeep c;
     minIndexesToKeep := minIndexesToKeep c; aliasName := aliasName c;
     mappingPath := mappingPath c; settingsPath := v;
     analyzer := analyzer c; socketLimit := socketLimit c |}.

Definition without_settingsPath : t → t := with_settingsPath JUndefined.

Definition without_analyzer (c : t) : t :=
  {| eshosts := eshosts c; daysToKeep := daysToKeep c;
     minIndexesToKeep := minIndexesToKeep c; aliasName := aliasName c;
     mappingPath := mappingPath c; settingsPath := settingsPath c;
     analyzer := JUndefined; socketLimit := socketLimit c |}.

End Config.

(** [!config[f] || typeof config[f] !== 'string'] *)
Definition not_a_string (v : jsval) : bool :=
  negb (truthy v) || negb (String.eqb (typeof v) "string").

(** The string a value is, once [typeof v === 'string'] has been checked. *)
Definition string_of (v : jsval) : string :=
  match v with
  | JString s => s
  | _ => ""
  end.

(** A destructuring default: [{f = d}] takes [d] when the property is [undefined]. *)
Definition default_to (d v : jsval) : jsval :=
  match v with
  | JUndefined => d
  | _ => v
  end.

(** [!v || typeof v !== 'number'] *)
Definition not_a_number (v : jsval) : bool :=
  negb (truthy v) || negb (String.eqb (typeof v) "number").

(** [v <= 0], evaluated on numbers only. *)
Definition le_zero (v : jsval) : bool :=
  match v with
  | JNumber n => (n <=? 0)%Z
  | _ => false
  end.

(** [config.socketLimit && (typeof config.socketLimit !== 'number' || config.socketLimit <= 0)] *)
Definition bad_socketLimit (v : jsval) : bool :=
  truthy v && (negb (String.eqb (typeof v) "number") || le_zero v).

(** [config.socketLimit ? config.socketLimit : 80] *)
Definition maxSockets_of (v : jsval) : jsval :=
  if truthy v then v else JNumber 80.

(** What [new elasticsearch.Client({...})] was given. *)
Record Client := {
  hosts : jsval;
  apiVersion : option string;
  maxSockets : jsval;
  keepAlive : bool
}.

(** ** CategoryToMatchTransformer *)

Module Transformer.

Module Synonym.
Record t := {
  name : string;
  isExactMatch : bool
}.
End Synonym.

Module Category.
Record t := {
  categoryID : string;
  categoryName : string;
  categoryWeight : Z;
  isExactMatch : bool;
  language : string;
  display : bool;
  includeSynonyms : list Synonym.t;
  excludeSynonyms : list Synonym.t;
  categoryDisplay : jsval
}.
End Category.

(** A record of the array [transform] returns. [categoryDisplay] is [None]
    on the records that have no such property. *)
Record Match := {
  category : string;
  contentID : string;
  synonym : string;
  language : string;
  isNegated : bool;
  isExact : bool;
  tokenCount : jsval;
  categoryDisplay : option jsval
}.

(** A call of [tokenizeNameWrap] that has been started: suspended in
    [await timeout(100)], suspended in [await this.tokenizeName(name)] with
    the analyze request sent, or settled. *)
Inductive task :=
| Sleeping (name : string)
| Fetching (name : string)
| Settled (r : result jsval).

(** The transformer instance ([tokenCache], [fetchQueue]) with the calls of
    [tokenizeNameWrap] started on it, the texts sent to
    [esclient.indices.analyze] so far, oldest first, and what went to
    [logger.error]. *)
Record world := {
  tokenCache : gmap string jsval;
  fetchQueue : gmap string jsval;
  tasks : list task;
  analyzed : list string;
  logged : list string
}.

(** The instance the constructor leaves. *)
Definition new_world : world :=
  {| tokenCache := ∅; fetchQueue := ∅; tasks := []; analyzed := []; logged := [] |}.

(** What the event loop delivers: a call of [tokenizeNameWrap(name)] by some
    caller; the timer of a sleeping call; the answer of the analyzer to a
    fetching call, a response whose [tokens] array has the given length;
    the failure of that request, with [err.message]. *)
Inductive event :=
| Call (name : string)
| Wake (t : nat)
| Reply (t : nat) (tokens : nat)
| Failure (t : nat) (message : string).

(** The messages of the analyzer's failures among the events, in order. *)
Fixpoint failures (es : list event) : list string :=
  match es with
  | [] => []
  | Failure _ message :: es' => message :: failures es'
  | _ :: es' => failures es'
  end.

(** [String.prototype.toLowerCase], which the runtime supplies. *)
Class LowerCase := toLowerCase : string → string.

Section WithLowerCase.

Context {lower : LowerCase}.

Definition extractMatchFromSyn (cat : Category.t) (isNeg : bool) (syn : Synonym.t) : Match :=
  {| category := Category.categoryName cat;
     contentID := Category.categoryID cat;
     synonym := Synonym.name syn;
     language := Category.language cat;
     isNegated := isNeg;
     isExact := Synonym.isExactMatch syn;
     tokenCount := JNumber 0;
     categoryDisplay := None |}.

(** [{...m, tokenCount: v}] *)
Definition with_tokenCount (m : Match) (v : jsval) : Match :=
  {| category := category m;
     contentID := contentID m;
     synonym := synonym m;
     language := language m;
     isNegated := isNegated m;
     isExact := isExact m;
     tokenCount := v;
     categoryDisplay := categoryDisplay m |}.

(** The reducer of [extractNamesToTokenize]. *)
Definition dedupe_step (ac : list string) (curr : string) : list string :=
  if negb (existsb (λ el, bool_decide (toLowerCase el = toLowerCase curr)) ac)
  then ac ++ [curr]
  else ac.

Definition extractNamesToTokenize (cat : Category.t) : list string :=
  fold_left dedupe_step
    (Category.categoryName cat
       :: map Synonym.name (Category.includeSynonyms cat)
       ++ map Synonym.name (Category.excludeSynonyms cat))
    [].

(** The specification's words for the names to send: the texts in
    order, each kept in the casing it is first seen in and dropped when its
    lower-cased form has been seen before. *)
Fixpoint first_seen (seen : list string) (texts : list string) : list string :=
  match texts with
  | [] => []
  | x :: texts' =>
      if bool_decide (toLowerCase x ∈ seen)
      then first_seen seen texts'
      else x :: first_seen (seen ++ [toLowerCase x]) texts'
  end.

(** [tokenizeNameWrap(name)] from its entry to its first [await] or its
    [return]: the state it leaves and where the call stands. *)
Definition tokenizeNameWrap (name : string) (w : world) : world * task :=
  let k := toLowerCase name in
  if truthy (obj_get (tokenCache w) k) then
    (w, Settled (Ok (obj_get (tokenCache w) k)))
  else if truthy (obj_get (fetchQueue w) k) then
    (w, Sleeping name)
  else
    ({| tokenCache := tokenCache w;
        fetchQueue := obj_set (fetchQueue w) k (JBool true);
        tasks := tasks w;
        analyzed := analyzed w ++ [name];
        logged := logged w |},
     Fetching name).

(** The continuation of [tokenizeNameWrap] after [await this.tokenizeName(name)]
    returned [count]. *)
Definition fetched (name : string) (count : nat) (w : world) : world * task :=
  let k := toLowerCase name in
  let cache := obj_set (tokenCache w) k (JNumber (Z.of_nat count)) in
  ({| tokenCache := cache;
      fetchQueue := obj_set (fetchQueue w) k (JBool false);
      tasks := tasks w;
      analyzed := analyzed w;
      logged := logged w |},
   Settled (Ok (obj_get cache k))).

(** [tokenizeName]'s [catch]: log and rethrow; [tokenizeNameWrap] has no
    handler, so the assignments after its [await] are skipped. *)
Definition failed (name : string) (message : string) (w : world) : world * task :=
  ({| tokenCache := tokenCache w;
      fetchQueue := fetchQueue w;
      tasks := tasks w;
      analyzed := analyzed w;
      logged := logged w ++ ["Could not analyze " +:+ name +:+ ". " +:+ message] |},
   Settled (Err message)).

Definition set_task (i : nat) (wt : world * task) : world :=
  {| tokenCache := tokenCache wt.1;
     fetchQueue := fetchQueue wt.1;
     tasks := <[i := wt.2]> (tasks wt.1);
     analyzed := analyzed wt.1;
     logged := logged wt.1 |}.

Definition add_task (wt : world * task) : world :=
  {| tokenCache := tokenCache wt.1;
     fetchQueue := fetchQueue wt.1;
     tasks := tasks wt.1 ++ [wt.2];
     analyzed := analyzed wt.1;
     logged := logged wt.1 |}.

(** One turn of the event loop; [None] when the event cannot happen in [w]. *)
Definition step (e : event) (w : world) : option world :=
  match e with
  | Call name => Some (add_task (tokenizeNameWrap name w))
  | Wake i =>
      match tasks w !! i with
      | Some (Sleeping name) => Some (set_task i (tokenizeNameWrap name w))
      | _ => None
      end
  | Reply i count =>
      match tasks w !! i with
      | Some (Fetching name) => Some (set_task i (fetched name count w))
      | _ => None
      end
  | Failure i message =>
      match tasks w !! i with
      | Some (Fetching name) => Some (set_task i (failed name message w))
      | _ => None
      end
  end.

Fixpoint run (es : list event) (w : world) : option world :=
  match es with
  | [] => Some w
  | e :: es' =>
      match step e w with
      | Some w' => run es' w'
      | None => None
      end
  end.

(** The worlds the instance can be in. *)
Definition reachable (w : world) : Prop :=
  ∃ es, run es new_world = Some w.

(** How the promise of task [i] stands. *)
Definition settled (w : world) (i : nat) : option (result jsval) :=
  match tasks w !! i with
  | Some (Settled r) => Some r
  | _ => None
  end.

(** [Promise.all]: pending while a member is pending and none has failed.
    When several members have failed, the earliest in the array stands for
    the one that failed first. *)
Fixpoint promise_all (ps : list (option (result jsval))) : option (result (list jsval)) :=
  match ps with
  | [] => Some (Ok [])
  | p :: ps' =>
      match p, promise_all ps' with
      | Some (Err m), _ => Some (Err m)
      | _, Some (Err m) => Some (Err m)
      | Some (Ok v), Some (Ok vs) => Some (Ok (v :: vs))
      | _, _ => None
      end
  end.

(** [tokenizeNames] up to its [await]: [nameArr.map] starts one call of
    [tokenizeNameWrap] per name, in order. *)
Definition start_call (started : world * list nat) (name : string) : world * list nat :=
  (add_task (tokenizeNameWrap name started.1), started.2 ++ [length (tasks started.1)]).

Definition tokenizeNames_calls (nameArr : list string) (w : world) : world * list nat :=
  fold_left start_call nameArr (w, []).

(** [results.reduce((ac, curr) => ({...ac, [curr.name]: curr.count}), {})] *)
Definition tokenizeNames_lookup (nameArr : list string) (counts : list jsval) : gmap string jsval :=
  fold_left (fun ac curr => <[curr.1 := curr.2]> ac) (zip nameArr counts) ∅.

(** [transform] after [await this.tokenizeNames(namesToTokenize)]. *)
Definition transform_matches (data : Category.t) (lookup : gmap string jsval) : list Match :=
  let incMatches :=
    map (fun syn => with_tokenCount (extractMatchFromSyn data false syn)
                      (obj_get lookup (Synonym.name syn)))
        (Category.includeSynonyms data) in
  let exMatches :=
    map (fun syn => with_tokenCount (extractMatchFromSyn data true syn)
                      (obj_get lookup (Synonym.name syn)))
        (Category.excludeSynonyms data) in
  let catMatch :=
    {| category := Category.categoryName data;
       contentID := Category.categoryID data;
       synonym := Category.categoryName data;
       language := Category.language data;
       isNegated := false;
       isExact := Category.isExactMatch data;
       tokenCount := obj_get lookup (Category.categoryName data);
       categoryDisplay := Some (Category.categoryDisplay data) |} in
  catMatch :: incMatches ++ exMatches.

(** [transform(data)] up to its [await]. *)
Definition transform_calls (data : Category.t) (w : world) : world * list nat :=
  tokenizeNames_calls (extractNamesToTokenize data) w.

(** How the promise of a [transform(data)] stands whose calls of
    [tokenizeNameWrap] are the tasks [ids]. *)
Definition transform (data : Category.t) (ids : list nat) (w : world) : option (result (list Match)) :=
  match promise_all (map (settled w) ids) with
  | None => None
  | Some (Err m) => Some (Err m)
  | Some (Ok counts) =>
      Some (Ok (transform_matches data
                  (tokenizeNames_lookup (extractNamesToTokenize data) counts)))
  end.

(** An analyzer that answers every request: the fetching tasks among [ids]
    get their answers, [count name] tokens for [name]. *)
Definition answer_one (count : string -> nat) (w : world) (i : nat) : world :=
  match tasks w !! i with
  | Some (Fetching name) => set_task i (fetched name (count name) w)
  | _ => w
  end.

Definition answer (count : string -> nat) (ids : list nat) (w : world) : world :=
  fold_left (answer_one count) ids w.

(** [transform(data)] on a new instance whose analyzer answers: the world
    it leaves and how its promise stands. *)
Definition transform_alone (count : string -> nat) (data : Category.t)
  : world * option (result (list Match)) :=
  let '(w, ids) := transform_calls data new_world in
  let w' := answer count ids w in
  (w', transform data ids w').

(** What the specification asks of the array [ms] that [transform(data)]
    returns: the category's record, then the include synonyms in their
    order, then the exclude synonyms in theirs. *)
Definition expanded (data : Category.t) (ms : list Match) : Prop :=
  let inc := Category.includeSynonyms data in
  let exc := Category.excludeSynonyms data in
  length ms = 1 + length inc + length exc ∧
  (∃ c, ms !! 0 = Some c ∧
        isNegated c = false ∧
        synonym c = Category.categoryName data ∧
        isExact c = Category.isExactMatch data ∧
        categoryDisplay c = Some (Category.categoryDisplay data)) ∧
  (∀ i syn, inc !! i = Some syn →
     ∃ r, ms !! (1 + i) = Some r ∧ synonym r = Synonym.name syn ∧ isNegated r = false) ∧
  (∀ j syn, exc !! j = Some syn →
     ∃ r, ms !! (1 + length inc + j) = Some r ∧ synonym r = Synonym.name syn ∧ isNegated r = true).

(** While a request for a key is out, the key's flag in [fetchQueue] is
    raised and the key has no usable cache entry; no two requests are out
    for one key. *)
Record single_flight (w : world) : Prop := {
  sf_flag : ∀ i name, tasks w !! i = Some (Fetching name) →
      truthy (obj_get (fetchQueue w) (toLowerCase name)) = true;
  sf_miss : ∀ i name, tasks w !! i = Some (Fetching name) →
      truthy (obj_get (tokenCache w) (toLowerCase name)) = false;
  sf_one : ∀ i j name1 name2,
      tasks w !! i = Some (Fetching name1) →
      tasks w !! j = Some (Fetching name2) →
      toLowerCase name1 = toLowerCase name2 → i = j;
  sf_proto : tokenCache w !! "__proto__" = None
}.

(** A key is stuck: its flag is raised, it has no usable cache entry, and
    no request is out that could change either. *)
Record stuck (k : string) (w : world) : Prop := {
  stuck_miss : truthy (obj_get (tokenCache w) k) = false;
  stuck_flag : truthy (obj_get (fetchQueue w) k) = true;
  stuck_idle : ∀ i name, tasks w !! i = Some (Fetching name) → toLowerCase name ≠ k
}.

(** Where a call stands after its first turn on an instance that has
    nothing cached and no flag raised for its key, *)
Definition first_state (name : string) : task :=
  if truthy (ObjectPrototype_get (toLowerCase name))
  then Settled (Ok (ObjectPrototype_get (toLowerCase name)))
  else Fetching name.

(** and what it resolves to once the analyzer has answered. *)
Definition resolved_count (count : string → nat) (name : string) : jsval :=
  if truthy (ObjectPrototype_get (toLowerCase name))
  then ObjectPrototype_get (toLowerCase name)
  else JNumber (Z.of_nat (count name)).

End WithLowerCase.

(** *** The categories and names of the test suite *)

Definition DUPES : Category.t :=
  {| Category.categoryID := "DUPES";
     Category.categoryName := "DUPES";
     Category.categoryWeight := 110;
     Category.isExactMatch := false;
     Category.language := "en";
     Category.display := true;
     Category.includeSynonyms :=
       [ {| Synonym.name := "dupes"; Synonym.isExactMatch := false |};
         {| Synonym.name := "not dupe"; Synonym.isExactMatch := false |} ];
     Category.excludeSynonyms :=
       [ {| Synonym.name := "dupes"; Synonym.isExactMatch := false |};
         {| Synonym.name := "dupes"; Synonym.isExactMatch := false |} ];
     Category.categoryDisplay := JUndefined |}.

(** What a run shows from outside: the calls and the texts analyzed. *)
Definition observe (es : list event) : option (list task * list string) :=
  (λ w, (tasks w, analyzed w)) <$> run (lower := ascii_lower) es new_world.

(** The world [transform(DUPES)] leaves on a new instance whose analyzer
    finds one token in every name. *)
Definition DUPES_world : world := (transform_alone (lower := ascii_lower) (λ _, 1) DUPES).1.

(** *** Configuration *)

(** The instance [new CategoryToMatchTransformer(logger, esclient, config)]
    leaves; its [tokenCache] and [fetchQueue] are those of [new_world]. *)
Record CategoryToMatchTransformer := {
  esclient : Client;
  analyzerSetting : list (string * jsval)
}.

Definition constructor (esclient : option Client) (tokenizer filter : jsval)
  : result CategoryToMatchTransformer :=
  let tokenizer := default_to (JBool false) tokenizer in
  let filter := default_to (JBool false) filter in
  match esclient with
  | None => Err "You must supply an Elasticsearch client"
  | Some client =>
      Ok {| esclient := client;
            analyzerSetting :=
              (if truthy tokenizer then [("tokenizer", tokenizer)] else [])
              ++ (if truthy filter then [("filter", filter)] else []) |}
  end.

Definition ValidateConfig (config : Config.t) : list string :=
  (if negb (truthy (Config.eshosts config))
   then ["eshosts is required for the transformer"] else [])
  ++ (if not_a_string (Config.settingsPath config)
      then ["settingsPath is required for the transformer"] else [])
  ++ (if not_a_string (Config.analyzer config)
      then ["You must supply the name of analyzer defined in the settings"] else [])
  ++ (if bad_socketLimit (Config.socketLimit config)
      then ["socketLimit must be a number greater than 0"] else []).

(** The errors [ValidateConfig] can report, in the order of its checks. *)
Definition checks : list string :=
  [ "eshosts is required for the transformer";
    "settingsPath is required for the transformer";
    "You must supply the name of analyzer defined in the settings";
    "socketLimit must be a number greater than 0" ].

(** The configuration passes every check of [ValidateConfig]. *)
Definition accepts (config : Config.t) : bool :=
  truthy (Config.eshosts config)
  && negb (not_a_string (Config.settingsPath config))
  && negb (not_a_string (Config.analyzer config))
  && negb (bad_socketLimit (Config.socketLimit config)).

(** The message [GetInstance] raises where [ValidateConfig] reports [e]. *)
Definition raised_for (e : string) : string :=
  if bool_decide (e = "eshosts is required for the transformer")
  then "eshosts is required for the elastic loader"
  else if bool_decide (e = "settingsPath is required for the transformer")
  then "settingsPath is required for the elastic loader"
  else e.

(** The checks in the order [GetInstance] makes them, each under the
    message [ValidateConfig] has for it. *)
Definition raise_order : list string :=
  [ "eshosts is required for the transformer";
    "socketLimit must be a number greater than 0";
    "settingsPath is required for the transformer";
    "You must supply the name of analyzer defined in the settings" ].

Definition GOOD_STEP_CONFIG : Config.t :=
  {| Config.eshosts := JArray [JString "http://example.org:9200"];
     Config.daysToKeep := JUndefined;
     Config.minIndexesToKeep := JUndefined;
     Config.aliasName := JUndefined;
     Config.mappingPath := JUndefined;
     Config.settingsPath := JString "es-mappings/settings.json";
     Config.analyzer := JString "nostem";
     Config.socketLimit := JUndefined |}.

Section GetInstance.

(** [path.join(__dirname, '..', '..')], [path.join], what [require] finds
    at a path ([None] when it throws), the properties of values that are
    not plain objects, and the error [new elasticsearch.Client(options)]
    throws on options it cannot read ([None] when it returns the client). *)
Variable appRoot : string.
Variable path_join : string → string → string.
Variable require : string → option jsval.
Variable builtin : jsval → string → jsval.
Variable Client_error : Client → option string.

Definition GetInstance (config : Config.t) : result CategoryToMatchTransformer :=
  if negb (truthy (Config.eshosts config)) then
    Err "eshosts is required for the elastic loader"
  else if bad_socketLimit (Config.socketLimit config) then
    Err "socketLimit must be a number greater than 0"
  else
    let client :=
      {| hosts := Config.eshosts config;
         apiVersion := Some "5.6";
         maxSockets := maxSockets_of (Config.socketLimit config);
         keepAlive := true |} in
    match Client_error client with
    | Some message => Err message
    | None =>
    if not_a_string (Config.settingsPath config) then
      Err "settingsPath is required for the elastic loader"
    else
      let settingsFullPath := path_join appRoot (string_of (Config.settingsPath config)) in
      match require settingsFullPath with
      | None => Err ("settingsPath cannot be loaded: " +:+ settingsFullPath)
      | Some settings =>
          if not_a_string (Config.analyzer config) then
            Err "You must supply the name of analyzer defined in the settings"
          else
            let analyzer := string_of (Config.analyzer config) in
            bind (js_get builtin settings "settings") (λ s1,
            if negb (truthy s1) then Err "Could not find analyzer in settings" else
            bind (js_get builtin s1 "analysis") (λ s2,
            if negb (truthy s2) then Err "Could not find analyzer in settings" else
            bind (js_get builtin s2 "analyzer") (λ s3,
            if negb (truthy s3) then Err "Could not find analyzer in settings" else
            bind (js_get builtin s3 analyzer) (λ s4,
            if negb (truthy s4) then Err "Could not find analyzer in settings" else
            bind (js_get builtin s4 "tokenizer") (λ tokenizer,
            bind (js_get builtin s4 "filter") (λ filter,
            constructor (Some client) tokenizer filter))))))
      end
    end.

End GetInstance.

End Transformer.

(** ** ElasticBestbetsLoader *)

Module Loader.

(** A record of the array [loadRecord] is given, with the properties it reads. *)
Record BestbetMatch := {
  isCategory : jsval;
  category : string;
  contentID : string;
  weight : jsval;
  synonym : string;
  language : string;
  isNegated : bool;
  isExact : bool;
  tokenCount : jsval;
  categoryDisplay : jsval
}.

(** A document of the "synonyms" type. *)
Module SynonymDoc.
Record t := {
  category : string;
  contentid : string;
  synonym : string;
  language : string;
  is_negated : bool;
  is_exact : bool;
  tokencount : jsval
}.
End SynonymDoc.

(** The document of the "categorydisplay" type. *)
Module CategoryDisplay.
Record t := {
  contentid : string;
  name : string;
  weight : jsval;
  content : jsval
}.
End CategoryDisplay.

(** The instance: [indexName] is [false] until [begin] has run. *)
Record ElasticBestbetsLoader := {
  estools : Client;
  mappings : jsval;
  settings : jsval;
  aliasName : string;
  daysToKeep : jsval;
  minIndexesToKeep : jsval;
  indexName : jsval
}.

(** The calls made on [this.estools]. *)
Inductive call :=
| createTimestampedIndex (alias : string) (mappings settings : jsval)
| indexDocumentBulk (index : jsval) (type : string) (docs : list (string * SynonymDoc.t))
| indexDocument (index : jsval) (type : string) (id : string) (doc : CategoryDisplay.t)
| optimizeIndex (index : jsval)
| setAliasToSingleIndex (alias : string) (index : jsval)
| cleanupOldIndices (alias : string) (daysToKeep minIndexesToKeep : jsval).

Inductive log_entry :=
| debug (message : string)
| error (message : string).

(** What a method did: its calls on [estools] in order, its log lines, and
    how its promise settled. *)
Record outcome (A : Type) := {
  calls : list call;
  logged : list log_entry;
  returned : result A
}.
Arguments calls {A} o.
Arguments logged {A} o.
Arguments returned {A} o.

(** What [indexDocumentBulk] resolves to. *)
Record BulkResult := {
  updated : list string;
  errors : list jsval
}.

Definition constructor (estools : Client) (mappings settings : jsval)
    (daysToKeep minIndexesToKeep aliasName : jsval) : result ElasticBestbetsLoader :=
  let daysToKeep := default_to (JNumber 10) daysToKeep in
  let minIndexesToKeep := default_to (JNumber 2) minIndexesToKeep in
  let aliasName := default_to (JBool false) aliasName in
  if not_a_string aliasName then
    Err "aliasName is required for the elastic loader"
  else if not_a_number daysToKeep then
    Err "daysToKeep is required for the elastic loader"
  else if not_a_number minIndexesToKeep then
    Err "minIndexesToKeep is required for the elastic loader"
  else
    Ok {| estools := estools;
          mappings := mappings;
          settings := settings;
          aliasName := string_of aliasName;
          daysToKeep := daysToKeep;
          minIndexesToKeep := minIndexesToKeep;
          indexName := JBool false |}.

(** [`${v}`] for the values [indexName] takes. *)
Definition template (v : jsval) : string :=
  match v with
  | JString s => s
  | JBool true => "true"
  | JBool false => "false"
  | JUndefined => "undefined"
  | JNull => "null"
  | _ => ""
  end.

(** [begin], given what [createTimestampedIndex] settles to: the outcome
    and the instance it leaves. *)
Definition begin (self : ElasticBestbetsLoader) (created : result string)
  : outcome unit * ElasticBestbetsLoader :=
  let call := createTimestampedIndex (aliasName self) (mappings self) (settings self) in
  match created with
  | Ok name =>
      ({| calls := [call];
          logged := [debug "ElasticBestbetsLoader:begin - Begin Begin";
                     debug "ElasticResourceLoader:begin - End Begin"];
          returned := Ok () |},
       {| estools := estools self;
          mappings := mappings self;
          settings := settings self;
          aliasName := aliasName self;
          daysToKeep := daysToKeep self;
          minIndexesToKeep := minIndexesToKeep self;
          indexName := JString name |})
  | Err m =>
      ({| calls := [call];
          logged := [debug "ElasticBestbetsLoader:begin - Begin Begin";
                     error ("Failed to create index " +:+ template (indexName self))];
          returned := Err m |},
       self)
  end.

(** How the two writes of [loadRecord] settle, and which settles first. *)
Record writes := {
  bulk : result BulkResult;
  document : result unit;
  bulk_first : bool
}.

(** [Promise.all] of the two writes: both results, or the failure that
    came first. *)
Definition promise_all (w : writes) : result (BulkResult * unit) :=
  match bulk w, document w with
  | Ok res, Ok u => Ok (res, u)
  | Err m, Ok _ => Err m
  | Ok _, Err m => Err m
  | Err m1, Err m2 => Err (if bulk_first w then m1 else m2)
  end.

Definition synonym_doc (ci : nat) (curr : BestbetMatch) : string * SynonymDoc.t :=
  (contentID curr +:+ "_" +:+ pretty ci,
   {| SynonymDoc.category := category curr;
      SynonymDoc.contentid := contentID curr;
      SynonymDoc.synonym := synonym curr;
      SynonymDoc.language := language curr;
      SynonymDoc.is_negated := isNegated curr;
      SynonymDoc.is_exact := isExact curr;
      SynonymDoc.tokencount := tokenCount curr |}).

Definition category_display (cat : BestbetMatch) : CategoryDisplay.t :=
  {| CategoryDisplay.contentid := contentID cat;
     CategoryDisplay.name := category cat;
     CategoryDisplay.weight := weight cat;
     CategoryDisplay.content := categoryDisplay cat |}.

Definition loadRecord (self : ElasticBestbetsLoader) (w : writes) (matches : list BestbetMatch)
  : outcome unit :=
  match matches with
  | [] => {| calls := []; logged := []; returned := Err "A category resulted in 0 matches" |}
  | first :: _ =>
      match head (map category_display (filter (λ m, truthy (isCategory m) = true) matches)) with
      | None =>
          {| calls := []; logged := [];
             returned := Err ("Category " +:+ contentID first +:+ " is missing its display") |}
      | Some categoryDisplay =>
          let docArr := imap synonym_doc matches in
          let requests :=
            [ indexDocumentBulk (indexName self) "synonyms" docArr;
              indexDocument (indexName self) "categorydisplay"
                (CategoryDisplay.contentid categoryDisplay) categoryDisplay ] in
          match promise_all w with
          | Err m =>
              {| calls := requests;
                 logged := [error ("Could not index synonyms for " +:+ contentID first)];
                 returned := Err m |}
          | Ok (res, _) =>
              if negb (length (updated res) =? 0) then
                let message := "Category " +:+ contentID first +:+ " appears to have duplicates" in
                {| calls := requests; logged := [error message]; returned := Err message |}
              else if negb (length (errors res) =? 0) then
                let message := "Category " +:+ contentID first +:+ " appears had document errors" in
                {| calls := requests; logged := [error message]; returned := Err message |}
              else
                {| calls := requests; logged := []; returned := Ok () |}
          end
      end
  end.

Definition abort (self : ElasticBestbetsLoader) : outcome unit :=
  {| calls := []; logged := []; returned := Err "Not Implemented" |}.

(** How the three calls of [end] settle. *)
Record finishing := {
  optimized : result unit;
  aliased : result unit;
  cleaned : result unit
}.

Definition end_ (self : ElasticBestbetsLoader) (f : finishing) : outcome unit :=
  let optimize := optimizeIndex (indexName self) in
  let swap := setAliasToSingleIndex (aliasName self) (indexName self) in
  let cleanup := cleanupOldIndices (aliasName self) (daysToKeep self) (minIndexesToKeep self) in
  match optimized f with
  | Err m =>
      {| calls := [optimize];
         logged := [error "Errors occurred during end process"];
         returned := Err m |}
  | Ok _ =>
      match aliased f with
      | Err m =>
          {| calls := [optimize; swap];
             logged := [error "Errors occurred during end process"];
             returned := Err m |}
      | Ok _ =>
          match cleaned f with
          | Err m =>
              {| calls := [optimize; swap; cleanup];
                 logged := [error "Could not cleanup old indices";
                            error "Errors occurred during end process"];
                 returned := Err m |}
          | Ok _ =>
              {| calls := [optimize; swap; cleanup]; logged := []; returned := Ok () |}
          end
      end
  end.

(** Where [alias] points after the calls [cs], going by the alias
    operations among them: the index of the last one. *)
Definition alias_target (alias : string) (cs : list call) : option jsval :=
  fold_left
    (λ target c,
       match c with
       | setAliasToSingleIndex a index => if bool_decide (a = alias) then Some index else target
       | _ => target
       end)
    cs None.

(** The index a call reads or writes; [createTimestampedIndex] and
    [cleanupOldIndices] are given the alias alone. *)
Definition index_of (c : call) : option jsval :=
  match c with
  | indexDocumentBulk index _ _ => Some index
  | indexDocument index _ _ _ => Some index
  | optimizeIndex index => Some index
  | setAliasToSingleIndex _ index => Some index
  | createTimestampedIndex _ _ _ => None
  | cleanupOldIndices _ _ _ => None
  end.

Definition ValidateConfig (config : Config.t) : list string :=
  (if not_a_string (Config.mappingPath config)
   then ["mappingPath is required for the elastic loader"] else [])
  ++ (if not_a_string (Config.settingsPath config)
      then ["settingsPath is required for the elastic loader"] else [])
  ++ (if negb (truthy (Config.eshosts config))
      then ["eshosts is required for the elastic loader"] else [])
  ++ (if bad_socketLimit (Config.socketLimit config)
      then ["socketLimit must be a number greater than 0"] else []).

(** The errors [ValidateConfig] can report, in the order of its checks. *)
Definition checks : list string :=
  [ "mappingPath is required for the elastic loader";
    "settingsPath is required for the elastic loader";
    "eshosts is required for the elastic loader";
    "socketLimit must be a number greater than 0" ].

(** The configuration passes every check of [ValidateConfig]. *)
Definition accepts (config : Config.t) : bool :=
  negb (not_a_string (Config.mappingPath config))
  && negb (not_a_string (Config.settingsPath config))
  && truthy (Config.eshosts config)
  && negb (bad_socketLimit (Config.socketLimit config)).

Definition GOOD_STEP_CONFIG : Config.t :=
  {| Config.eshosts := JArray [JString "http://localhost:9200"];
     Config.daysToKeep := JNumber 10;
     Config.minIndexesToKeep := JUndefined;
     Config.aliasName := JString "bestbets_v1";
     Config.mappingPath := JString "es-mappings/mappings.json";
     Config.settingsPath := JString "es-mappings/settings.json";
     Config.analyzer := JUndefined;
     Config.socketLimit := JUndefined |}.

Section GetInstance.

(** As for the transformer; [new ElasticTools(logger, client)] keeps the
    client it is given. *)
Variable appRoot : string.
Variable path_join : string → string → string.
Variable require : string → option jsval.
Variable Client_error : Client → option string.

Definition GetInstance (config : Config.t) : result ElasticBestbetsLoader :=
  if not_a_string (Config.mappingPath config) then
    Err "mappingPath is required for the elastic loader"
  else
    let mapFullPath := path_join appRoot (string_of (Config.mappingPath config)) in
    match require mapFullPath with
    | None => Err ("mappingPath cannot be loaded: " +:+ mapFullPath)
    | Some mappings =>
        if not_a_string (Config.settingsPath config) then
          Err "settingsPath is required for the elastic loader"
        else
          let settingsFullPath := path_join appRoot (string_of (Config.settingsPath config)) in
          match require settingsFullPath with
          | None => Err ("settingsPath cannot be loaded: " +:+ settingsFullPath)
          | Some settings =>
              if negb (truthy (Config.eshosts config)) then
                Err "eshosts is required for the elastic loader"
              else if bad_socketLimit (Config.socketLimit config) then
                Err "socketLimit must be a number greater than 0"
              else
                let estools :=
                  {| hosts := Config.eshosts config;
                     apiVersion := None;
                     maxSockets := maxSockets_of (Config.socketLimit config);
                     keepAlive := true |} in
                match Client_error estools with
                | Some message => Err message
                | None =>
                    constructor estools mappings settings
                      (Config.daysToKeep config)
                      (Config.minIndexesToKeep config)
                      (Config.aliasName config)
                end
          end
    end.

End GetInstance.

(** *** The test suite's match lists *)

(** The instance [GetInstance] builds from the good configuration of the
    tests, after [begin] created an index. *)
Definition test_loader : ElasticBestbetsLoader :=
  {| estools := {| hosts := JArray [JString "http://localhost:9200"];
                   apiVersion := None;
                   maxSockets := JNumber 80;
                   keepAlive := true |};
     mappings := JObject [];
     settings := JObject [];
     aliasName := "bestbets_v1";
     daysToKeep := JNumber 10;
     minIndexesToKeep := JNumber 2;
     indexName := JString "bestbets_v1_20181105_105100" |}.

(** The records the transformer's test 'transforms no exclude' expects
    for category 1045389: the category's record is flagged [isCategory] and
    has no [categoryDisplay]. *)
Definition research_ideas_category : BestbetMatch :=
  {| isCategory := JBool true;
     category := "Cancer Research Ideas";
     contentID := "1045389";
     weight := JNumber 100;
     synonym := "Cancer Research Ideas";
     language := "en";
     isNegated := false;
     isExact := false;
     tokenCount := JNumber 3;
     categoryDisplay := JUndefined |}.

Definition research_ideas_synonym : BestbetMatch :=
  {| isCategory := JBool false;
     category := "Cancer Research Ideas";
     contentID := "1045389";
     weight := JNumber 100;
     synonym := "Clinical Trial Ideas";
     language := "en";
     isNegated := false;
     isExact := false;
     tokenCount := JNumber 3;
     categoryDisplay := JUndefined |}.

Definition research_ideas : list BestbetMatch :=
  [research_ideas_category; research_ideas_synonym].

(** The same records without the flag, as the transformer of this
    repository builds them. *)
Definition unflagged (m : BestbetMatch) : BestbetMatch :=
  {| isCategory := JUndefined;
     category := category m;
     contentID := contentID m;
     weight := weight m;
     synonym := synonym m;
     language := language m;
     isNegated := isNegated m;
     isExact := isExact m;
     tokenCount := tokenCount m;
     categoryDisplay := categoryDisplay m |}.

Definition written : writes :=
  {| bulk := Ok {| updated := []; errors := [] |}; document := Ok (); bulk_first := true |}.

Definition duplicated : writes :=
  {| bulk := Ok {| updated := ["1045389_0"]; errors := [] |};
     document := Ok ();
     bulk_first := true |}.

End Loader.

(** ** CDEBestbetsSource *)

Module CDESource.

(** The step configuration of the source, with the properties the code reads. *)
Record Config := {
  hostname : jsval;
  socketLimit : jsval
}.

(** The instance: what [new CDEPublishedContentListing(hostname, agent)]
    and [new HttpsAgent({maxSockets})] were given. *)
Record CDEBestbetsSource := {
  client_hostname : jsval;
  agent_maxSockets : jsval
}.

Definition ValidateConfig (config : Config) : list string :=
  (if negb (truthy (hostname config))
   then ["You must supply a source hostname"] else [])
  ++ (if bad_socketLimit (socketLimit config)
      then ["socketLimit must be a number greater than 0"] else []).

(** [config] is [None] when no configuration is given. *)
Definition GetInstance (config : option Config) : result CDEBestbetsSource :=
  match config with
  | None => Err "Config must be supplied"
  | Some config =>
      if negb (truthy (hostname config)) then
        Err "You must supply a source hostname"
      else if bad_socketLimit (socketLimit config) then
        Err "socketLimit must be a number greater than 0"
      else
        Ok {| client_hostname := hostname config;
              agent_maxSockets := maxSockets_of (socketLimit config) |}
  end.

Section WithLowerCase.

Context {lower : Transformer.LowerCase}.

(** [getLang(cleanedLang)]. The empty string is falsy, so
    [!cleanedLang || cleanedLang === ''] is [!cleanedLang]; a truthy value
    that is not a string has no [toLowerCase]. *)
Definition getLang (cleanedLang : jsval) : result string :=
  if negb (truthy cleanedLang) then Ok ""
  else
    match cleanedLang with
    | JString s =>
        let l := Transformer.toLowerCase s in
        if bool_decide (l ∈ ["en"; "eng"; "en-us"]) then Ok "en"
        else if bool_decide (l ∈ ["es"; "esp"; "es-us"]) then Ok "es"
        else Ok ""
    | _ => Err "cleanedLang.toLowerCase is not a function"
    end.

End WithLowerCase.

End CDESource.

(** ** The application under test *)

(** The application as the tests find it: its root, [path.join] on a
    relative path without dots, the two JSON files under [es-mappings], no
    properties on values that are not plain objects, and the client
    constructor of the elasticsearch library. *)
Module TestEnv.

Definition appRoot : string := "/bestbets-loader".

Definition path_join (a b : string) : string := a +:+ "/" +:+ b.

Definition settings_json : jsval :=
  JObject
    [ ("settings",
       JObject
         [ ("analysis",
            JObject
              [ ("analyzer",
                 JObject
                   [ ("nostem",
                      JObject
                        [ ("tokenizer", JString "standard");
                          ("filter", JArray [JString "lowercase"; JString "unique"]) ]) ]) ]) ]) ].

Definition require (p : string) : option jsval :=
  if bool_decide (p = "/bestbets-loader/es-mappings/settings.json") then Some settings_json
  else if bool_decide (p = "/bestbets-loader/es-mappings/mappings.json") then Some (JObject [])
  else None.

Definition builtin (v : jsval) (k : string) : jsval := JUndefined.

(** The client of the elasticsearch library reads [hosts] as a URL, a host
    object, or an array of these, and takes a default when it is falsy;
    on anything else its constructor throws a [TypeError]. *)
Definition readable_host (v : jsval) : bool :=
  match v with
  | JString _ | JObject _ => true
  | _ => false
  end.

Definition Client_error (options : Client) : option string :=
  let invalid :=
    Some ("Invalid hosts config. Expected a URL, an array of urls, "
          +:+ "a host config object, or an array of host config objects.") in
  if negb (truthy (hosts options)) then None
  else
    match hosts options with
    | JString _ | JObject _ => None
    | JArray elems => if forallb readable_host elems then None else invalid
    | _ => invalid
    end.

Definition Transformer_GetInstance :=
  Transformer.GetInstance appRoot path_join require builtin Client_error.
Definition Loader_GetInstance := Loader.GetInstance appRoot path_join require Client_error.

End TestEnv.

(** The order the specification gives for the loader's errors. *)
Definition stated_order : list string :=
  [ "eshosts is required for the elastic loader";
    "settingsPath is required for the elastic loader";
    "mappingPath is required for the elastic loader";
    "socketLimit must be a number greater than 0" ].

(** * Properties *)

(** ** The tests on configuration values *)

Lemma not_a_string_false v :
  not_a_string v = false ↔ ∃ s, v = JString s ∧ s ≠ "".
Proof.
  unfold not_a_string. split.
  - intros [Ht Hy]%orb_false_iff. destruct v; try done.
    eexists. split; [done|]. intros ->. done.
  - intros (s & -> & Hs). simpl. apply String.eqb_neq in Hs. by rewrite Hs.
Qed.

Lemma not_a_number_false v :
  not_a_number v = false ↔ ∃ n, v = JNumber n ∧ n ≠ 0%Z.
Proof.
  unfold not_a_number. split.
  - intros [Ht Hy]%orb_false_iff. destruct v; try done.
    eexists. split; [done|]. intros ->. done.
  - intros (n & -> & Hn). simpl. apply Z.eqb_neq in Hn. by rewrite Hn.
Qed.

Lemma maxSockets_of_positive v :
  bad_socketLimit v = false →
  ∃ n, maxSockets_of v = JNumber n ∧ (0 < n)%Z ∧
       (truthy v = true → v = JNumber n) ∧ (truthy v = false → n = 80%Z).
Proof.
  unfold bad_socketLimit, maxSockets_of.
  destruct v as [| |[]|n| |s|es|ps|f]; simpl; try done; try (by exists 80%Z).
  - destruct (n =? 0)%Z eqn:Hn; simpl; [by exists 80%Z|].
    intros Hle. exists n. apply Z.eqb_neq in Hn. apply Z.leb_gt in Hle. done.
  - destruct (String.eqb s ""); simpl; [by exists 80%Z|done].
Qed.

(** ** CategoryToMatchTransformer *)

Module TransformerFacts.
Import Transformer.

(** *** Reading and writing the dictionaries *)

Lemma obj_get_set_eq (o : gmap string jsval) k v :
  k ≠ "__proto__" → obj_get (obj_set o k v) k = v.
Proof.
  intros Hk. unfold obj_get, obj_set.
  rewrite bool_decide_eq_false_2 by done. simpl.
  by rewrite lookup_insert_eq.
Qed.

Lemma obj_get_set_ne (o : gmap string jsval) k k' v :
  k ≠ k' → obj_get (obj_set o k v) k' = obj_get o k'.
Proof.
  intros Hk. unfold obj_get, obj_set.
  destruct (bool_decide (k = "__proto__") && is_primitive v); [done|].
  by rewrite lookup_insert_ne.
Qed.

Lemma obj_set_proto (o : gmap string jsval) k v :
  is_primitive v = true → o !! "__proto__" = None → obj_set o k v !! "__proto__" = None.
Proof.
  intros Hv Ho. unfold obj_set. rewrite Hv, andb_true_r.
  case_bool_decide as Hk; [done|]. by rewrite lookup_insert_ne.
Qed.

Lemma obj_get_proto (o : gmap string jsval) :
  o !! "__proto__" = None → truthy (obj_get o "__proto__") = true.
Proof. intros Ho. unfold obj_get. by rewrite Ho. Qed.

Section WithLowerCase.

Context {lower : LowerCase}.

(** *** The single-flight invariant *)


Lemma single_flight_new : single_flight new_world.
Proof. split; try done. Qed.

Lemma tokenizeNameWrap_cases name w :
  (truthy (obj_get (tokenCache w) (toLowerCase name)) = true ∧
   tokenizeNameWrap name w = (w, Settled (Ok (obj_get (tokenCache w) (toLowerCase name)))))
  ∨ (truthy (obj_get (tokenCache w) (toLowerCase name)) = false ∧
     truthy (obj_get (fetchQueue w) (toLowerCase name)) = true ∧
     tokenizeNameWrap name w = (w, Sleeping name))
  ∨ (truthy (obj_get (tokenCache w) (toLowerCase name)) = false ∧
     truthy (obj_get (fetchQueue w) (toLowerCase name)) = false ∧
     tokenizeNameWrap name w =
       ({| tokenCache := tokenCache w;
           fetchQueue := obj_set (fetchQueue w) (toLowerCase name) (JBool true);
           tasks := tasks w;
           analyzed := analyzed w ++ [name];
           logged := logged w |}, Fetching name)).
Proof.
  unfold tokenizeNameWrap.
  destruct (truthy (obj_get (tokenCache w) _)) eqn:Hc; [by left|].
  destruct (truthy (obj_get (fetchQueue w) _)) eqn:Hq; [right; by left|].
  right; by right.
Qed.

(** The state a call is entered in keeps its tasks. *)
Lemma tokenizeNameWrap_tasks name w : tasks (tokenizeNameWrap name w).1 = tasks w.
Proof.
  destruct (tokenizeNameWrap_cases name w) as [[_ ->]|[(_ & _ & ->)|(_ & _ & ->)]]; done.
Qed.

(** A call that settles or goes to sleep at once adds no request: every
    fetching task was fetching before. *)
Ltac unchanged_tasks Hts :=
  intros;
  repeat match goal with
         | H : _ !! _ = Some (Fetching _) |- _ =>
             apply Hts in H as [H|[? _]]; [|done]
         end;
  eauto.

(** Entering a call keeps the invariant, wherever its task is put, as long
    as the place holds no request that is out. *)
Lemma single_flight_enter name w ts :
  single_flight w →
  (∀ i n, ts !! i = Some (Fetching n) →
     tasks w !! i = Some (Fetching n) ∨
     (tokenizeNameWrap name w).2 = Fetching n ∧
     ∀ j n', ts !! j = Some (Fetching n') → tasks w !! j ≠ Some (Fetching n') → j = i) →
  single_flight
    {| tokenCache := tokenCache (tokenizeNameWrap name w).1;
       fetchQueue := fetchQueue (tokenizeNameWrap name w).1;
       tasks := ts;
       analyzed := analyzed (tokenizeNameWrap name w).1;
       logged := logged (tokenizeNameWrap name w).1 |}.
Proof.
  intros [Hflag Hmiss Hone Hproto] Hts.
  destruct (tokenizeNameWrap_cases name w) as [[Hc E]|[(Hc & Hq & E)|(Hc & Hq & E)]];
    rewrite E in *; simpl in *.
  1,2: split; simpl; [by unchanged_tasks Hts..|done].
  - assert (Hk : toLowerCase name ≠ "__proto__").
    { intros Hk. rewrite Hk, obj_get_proto in Hc; done. }
    assert (Hold : ∀ i n, tasks w !! i = Some (Fetching n) → toLowerCase name ≠ toLowerCase n).
    { intros i n Hi Heq. specialize (Hflag i n Hi). rewrite <- Heq in Hflag. congruence. }
    split; simpl; try done.
    + intros i n Hi. destruct (Hts i n Hi) as [Ho|[[= <-] _]].
      * rewrite obj_get_set_ne by eauto. eauto.
      * by rewrite obj_get_set_eq.
    + intros i n Hi. destruct (Hts i n Hi) as [Ho|[[= <-] _]]; eauto.
    + intros i j n1 n2 Hi Hj Heq.
      destruct (Hts i n1 Hi) as [Hoi|[[= <-] Hui]], (Hts j n2 Hj) as [Hoj|[[= <-] Huj]].
      * eauto.
      * exfalso. eapply Hold; eauto.
      * exfalso. eapply Hold; eauto.
      * symmetry. apply (Hui j name Hj). intros Hoj. eapply Hold; eauto.
Qed.

Lemma single_flight_call name w :
  single_flight w → single_flight (add_task (tokenizeNameWrap name w)).
Proof.
  intros Hw. unfold add_task. rewrite tokenizeNameWrap_tasks.
  apply single_flight_enter; [done|].
  intros i n Hi.
  destruct (decide (i < length (tasks w))) as [Hlt|Hge].
  - left. by rewrite lookup_app_l in Hi.
  - right. rewrite lookup_app_r in Hi by lia.
    destruct (i - length (tasks w)) as [|d] eqn:Hd; [|done].
    simpl in Hi. injection Hi as ->. split; [done|].
    intros j n' Hj Hnj.
    destruct (decide (j < length (tasks w))) as [Hlt'|Hge'].
    + by rewrite lookup_app_l in Hj.
    + apply lookup_lt_Some in Hj. rewrite length_app in Hj. simpl in Hj. lia.
Qed.

Lemma single_flight_wake name i w :
  single_flight w → tasks w !! i = Some (Sleeping name) →
  single_flight (set_task i (tokenizeNameWrap name w)).
Proof.
  intros Hw Hs. unfold set_task. rewrite tokenizeNameWrap_tasks.
  apply single_flight_enter; [done|].
  intros j n Hj.
  destruct (decide (i = j)) as [<-|Hne].
  - right. rewrite list_lookup_insert_eq in Hj by (by eapply lookup_lt_Some).
    injection Hj as ->. split; [done|].
    intros j n' Hj Hnj. destruct (decide (i = j)) as [|Hne]; [done|].
    by rewrite list_lookup_insert_ne in Hj.
  - left. by rewrite list_lookup_insert_ne in Hj.
Qed.

Lemma single_flight_fetched name count i w :
  single_flight w → tasks w !! i = Some (Fetching name) →
  single_flight (set_task i (fetched name count w)).
Proof.
  intros [Hflag Hmiss Hone Hproto] Hf.
  assert (Hother : ∀ j n, <[i := Settled (Ok (obj_get
              (obj_set (tokenCache w) (toLowerCase name) (JNumber (Z.of_nat count)))
              (toLowerCase name)))]> (tasks w) !! j = Some (Fetching n) →
            tasks w !! j = Some (Fetching n) ∧ toLowerCase name ≠ toLowerCase n).
  { intros j n Hj. destruct (decide (i = j)) as [<-|Hne].
    - rewrite list_lookup_insert_eq in Hj by (by eapply lookup_lt_Some). done.
    - rewrite list_lookup_insert_ne in Hj by done. split; [done|].
      intros Heq. apply Hne. eauto. }
  split; simpl.
  - intros j n Hj. apply Hother in Hj as [Hj Hk].
    rewrite obj_get_set_ne by done. eauto.
  - intros j n Hj. apply Hother in Hj as [Hj Hk].
    rewrite obj_get_set_ne by done. eauto.
  - intros j1 j2 n1 n2 Hj1 Hj2. apply Hother in Hj1 as [Hj1 _], Hj2 as [Hj2 _]. eauto.
  - by apply obj_set_proto.
Qed.

Lemma single_flight_failed name message i w :
  single_flight w → tasks w !! i = Some (Fetching name) →
  single_flight (set_task i (failed name message w)).
Proof.
  intros [Hflag Hmiss Hone Hproto] Hf.
  assert (Hother : ∀ j n, <[i := Settled (Err message)]> (tasks w) !! j = Some (Fetching n) →
            tasks w !! j = Some (Fetching n)).
  { intros j n Hj. destruct (decide (i = j)) as [<-|Hne].
    - rewrite list_lookup_insert_eq in Hj by (by eapply lookup_lt_Some). done.
    - by rewrite list_lookup_insert_ne in Hj. }
  split; simpl; eauto.
Qed.

Lemma single_flight_step e w w' :
  single_flight w → step e w = Some w' → single_flight w'.
Proof.
  intros Hw. destruct e as [name|i|i count|i message]; simpl.
  - intros [= <-]. by apply single_flight_call.
  - destruct (tasks w !! i) as [[name|name|r]|] eqn:Hi; try done.
    intros [= <-]. by apply single_flight_wake.
  - destruct (tasks w !! i) as [[name|name|r]|] eqn:Hi; try done.
    intros [= <-]. by apply single_flight_fetched.
  - destruct (tasks w !! i) as [[name|name|r]|] eqn:Hi; try done.
    intros [= <-]. by apply single_flight_failed.
Qed.

Lemma single_flight_run es : ∀ w w',
  single_flight w → run es w = Some w' → single_flight w'.
Proof.
  induction es as [|e es IH]; simpl; intros w w' Hw.
  - by intros [= <-].
  - destruct (step e w) as [w1|] eqn:He; [|done].
    intros Hr. eapply IH; [|done]. by eapply single_flight_step.
Qed.

(** X1. In every world the instance can reach, at most one analyze request
    is out for a key, whatever the casing of the names asked for. *)
Lemma at_most_one_outstanding w i j name1 name2 :
  reachable w →
  tasks w !! i = Some (Fetching name1) →
  tasks w !! j = Some (Fetching name2) →
  toLowerCase name1 = toLowerCase name2 →
  i = j.
Proof.
  intros [es Hes]. eapply sf_one, single_flight_run; [apply single_flight_new|done].
Qed.

(** *** The names sent to the analyzer *)

Lemma dedupe_step_NoDup ac curr :
  NoDup (map toLowerCase ac) → NoDup (map toLowerCase (dedupe_step ac curr)).
Proof.
  intros Hac. unfold dedupe_step.
  destruct (existsb _ ac) eqn:He; simpl; [done|].
  rewrite map_app. apply NoDup_app. split; [done|]. split; [|apply NoDup_singleton].
  intros k Hk Hk'. apply list_elem_of_singleton in Hk' as ->.
  apply list_elem_of_In, in_map_iff in Hk as (el & Hel & Hin).
  assert (existsb (fun el => bool_decide (toLowerCase el = toLowerCase curr)) ac = true);
    [|congruence].
  apply existsb_exists. exists el. split; [done|]. by apply bool_decide_eq_true.
Qed.

Lemma dedupe_NoDup l : ∀ ac,
  NoDup (map toLowerCase ac) → NoDup (map toLowerCase (fold_left dedupe_step l ac)).
Proof.
  induction l as [|x l IH]; simpl; intros ac Hac; [done|].
  apply IH. by apply dedupe_step_NoDup.
Qed.

(** No two of the names sent to the analyzer for a category agree up to case. *)
Lemma extractNamesToTokenize_NoDup cat :
  NoDup (map toLowerCase (extractNamesToTokenize cat)).
Proof. apply (dedupe_NoDup _ []). constructor. Qed.

Lemma dedupe_step_covers ac curr x :
  x ∈ ac ∨ x = curr → ∃ y, y ∈ dedupe_step ac curr ∧ toLowerCase y = toLowerCase x.
Proof.
  unfold dedupe_step. intros [Hx| ->].
  - exists x. split; [|done]. destruct (negb _); [|done]. apply elem_of_app. by left.
  - destruct (existsb _ ac) eqn:He; simpl.
    + apply existsb_exists in He as (el & Hin & Heq).
      exists el. split; [by apply list_elem_of_In|]. by apply bool_decide_eq_true in Heq.
    + exists curr. split; [|done]. apply elem_of_app. right. by apply list_elem_of_singleton.
Qed.

Lemma dedupe_step_keeps ac curr x : x ∈ ac → x ∈ dedupe_step ac curr.
Proof.
  unfold dedupe_step. intros Hx. destruct (negb _); [|done]. apply elem_of_app. by left.
Qed.

Lemma dedupe_covers l : ∀ ac x,
  x ∈ ac ∨ x ∈ l → ∃ y, y ∈ fold_left dedupe_step l ac ∧ toLowerCase y = toLowerCase x.
Proof.
  induction l as [|c l IH]; simpl; intros ac x Hx.
  - destruct Hx as [Hx|Hx]; [by exists x|by apply elem_of_nil in Hx].
  - destruct Hx as [Hx|Hx].
    + apply IH. left. by apply dedupe_step_keeps.
    + apply elem_of_cons in Hx as [->|Hx].
      * destruct (dedupe_step_covers ac c c) as (y & Hy & Heq); [by right|].
        destruct (IH (dedupe_step ac c) y) as (z & Hz & Heq'); [by left|].
        exists z. split; [done|]. congruence.
      * apply IH. by right.
Qed.

(** Every name of the category is sent in some casing. *)
Lemma extractNamesToTokenize_covers cat x :
  x ∈ Category.categoryName cat
        :: map Synonym.name (Category.includeSynonyms cat)
        ++ map Synonym.name (Category.excludeSynonyms cat) →
  ∃ y, y ∈ extractNamesToTokenize cat ∧ toLowerCase y = toLowerCase x.
Proof. intros Hx. apply (dedupe_covers _ []). by right. Qed.

Lemma dedupe_first_seen l : ∀ ac,
  fold_left dedupe_step l ac = ac ++ first_seen (map toLowerCase ac) l.
Proof.
  induction l as [|x l IH]; intros ac; simpl.
  - by rewrite app_nil_r.
  - rewrite IH. unfold dedupe_step.
    destruct (existsb _ ac) eqn:He; simpl.
    + apply existsb_exists in He as (el & Hin & Heq).
      apply bool_decide_eq_true in Heq.
      rewrite bool_decide_eq_true_2; [done|].
      rewrite <- Heq. by apply list_elem_of_In, in_map.
    + rewrite bool_decide_eq_false_2.
      * by rewrite map_app, <- app_assoc.
      * intros Hin. apply list_elem_of_In, in_map_iff in Hin as (el & Heq & Hin).
        assert (existsb (λ el, bool_decide (toLowerCase el = toLowerCase x)) ac = true);
          [|congruence].
        apply existsb_exists. exists el. split; [done|]. by apply bool_decide_eq_true.
Qed.

(** The names [extractNamesToTokenize] returns are the category name,
    the include names and the exclude names, in this order, without the
    ones whose lower-cased form came before. *)
Lemma extractNamesToTokenize_first_seen cat :
  extractNamesToTokenize cat
  = first_seen []
      (Category.categoryName cat
         :: map Synonym.name (Category.includeSynonyms cat)
         ++ map Synonym.name (Category.excludeSynonyms cat)).
Proof. unfold extractNamesToTokenize. by rewrite dedupe_first_seen. Qed.

(** *** The array [transform] builds *)

Lemma lookup_map {A B} (f : A → B) (l : list A) i : map f l !! i = f <$> (l !! i).
Proof. apply (list_lookup_fmap f l i). Qed.

Lemma transform_matches_expanded data lookup :
  expanded data (transform_matches data lookup).
Proof.
  unfold expanded, transform_matches. repeat split.
  - simpl. by rewrite length_app, !length_map.
  - eexists. split; [done|]. done.
  - intros i syn Hi. simpl.
    rewrite lookup_app_l by (rewrite length_map; by eapply lookup_lt_Some).
    rewrite lookup_map, Hi. simpl. eauto.
  - intros j syn Hj.
    replace (1 + length (Category.includeSynonyms data) + j)
      with (S (length (Category.includeSynonyms data) + j)) by lia.
    simpl. rewrite lookup_app_r by (rewrite length_map; lia).
    rewrite length_map.
    replace (length (Category.includeSynonyms data) + j - length (Category.includeSynonyms data))
      with j by lia.
    rewrite lookup_map, Hj. simpl. eauto.
Qed.

(** Whenever [transform] resolves, in whatever world, its array is as the
    specification asks. *)
Lemma transform_resolved_expanded data ids w ms :
  transform data ids w = Some (Ok ms) → expanded data ms.
Proof.
  unfold transform. destruct (promise_all _) as [[counts|m]|]; [|done..].
  intros [= <-]. apply transform_matches_expanded.
Qed.

(** *** [transform] on a new instance *)

Lemma tokenizeNameWrap_fresh name w :
  tokenCache w = ∅ → fetchQueue w !! toLowerCase name = None →
  (tokenizeNameWrap name w).2 = first_state name ∧
  tokenCache (tokenizeNameWrap name w).1 = ∅ ∧
  ∀ k, k ≠ toLowerCase name →
       fetchQueue (tokenizeNameWrap name w).1 !! k = fetchQueue w !! k.
Proof.
  intros Hc Hq. unfold tokenizeNameWrap, first_state, obj_get.
  rewrite Hc, lookup_empty, Hq.
  destruct (truthy (ObjectPrototype_get _)); simpl; [done|].
  split; [done|]. split; [done|]. intros k Hk. unfold obj_set.
  destruct (_ && _); [done|]. by rewrite lookup_insert_ne.
Qed.

Lemma start_calls_fresh l : ∀ w ids,
  tokenCache w = ∅ →
  (∀ name, name ∈ l → fetchQueue w !! toLowerCase name = None) →
  NoDup (map toLowerCase l) →
  tasks (fold_left start_call l (w, ids)).1 = tasks w ++ map first_state l ∧
  (fold_left start_call l (w, ids)).2 = ids ++ seq (length (tasks w)) (length l).
Proof.
  induction l as [|name l IH]; intros w ids Hc Hq Hnd; simpl.
  - by rewrite !app_nil_r.
  - apply NoDup_cons in Hnd as [Hname Hnd].
    destruct (tokenizeNameWrap_fresh name w) as (Ht & Hc' & Hq'); [done|apply Hq; left|].
    unfold start_call at 2 4. simpl.
    destruct (IH (add_task (tokenizeNameWrap name w)) (ids ++ [length (tasks w)]))
      as [IH1 IH2]; [done| |done|].
    { intros n Hn. simpl. rewrite Hq'; [apply Hq; by right|].
      intros Heq. apply Hname. rewrite <- Heq.
      apply list_elem_of_In, in_map, list_elem_of_In, Hn. }
    rewrite IH1, IH2. simpl.
    rewrite tokenizeNameWrap_tasks, Ht, length_app. simpl.
    rewrite <- !app_assoc. simpl.
    by replace (length (tasks w) + 1) with (S (length (tasks w))) by lia.
Qed.

Lemma tokenizeNameWrap_fresh_analyzed name w :
  tokenCache w = ∅ → fetchQueue w !! toLowerCase name = None →
  analyzed (tokenizeNameWrap name w).1
  = analyzed w ++ filter (λ n, truthy (ObjectPrototype_get (toLowerCase n)) = false) [name].
Proof.
  intros Hc Hq. unfold tokenizeNameWrap, obj_get.
  rewrite Hc, lookup_empty, Hq, filter_cons, filter_nil.
  destruct (truthy (ObjectPrototype_get _)); simpl; [by rewrite app_nil_r|done].
Qed.

Lemma start_calls_analyzed l : ∀ w ids,
  tokenCache w = ∅ →
  (∀ name, name ∈ l → fetchQueue w !! toLowerCase name = None) →
  NoDup (map toLowerCase l) →
  analyzed (fold_left start_call l (w, ids)).1
  = analyzed w ++ filter (λ n, truthy (ObjectPrototype_get (toLowerCase n)) = false) l.
Proof.
  induction l as [|name l IH]; intros w ids Hc Hq Hnd; simpl.
  - by rewrite app_nil_r.
  - apply NoDup_cons in Hnd as [Hname Hnd].
    destruct (tokenizeNameWrap_fresh name w) as (Ht & Hc' & Hq'); [done|apply Hq; left|].
    unfold start_call at 2. simpl.
    rewrite IH; [|done| |done].
    + simpl. rewrite tokenizeNameWrap_fresh_analyzed by (done || apply Hq; left).
      rewrite <- app_assoc. f_equal.
      by rewrite <- filter_app.
    + intros n Hn. simpl. rewrite Hq'; [apply Hq; by right|].
      intros Heq. apply Hname. rewrite <- Heq.
      apply list_elem_of_In, in_map, list_elem_of_In, Hn.
Qed.

Lemma answer_analyzed count ids : ∀ w, analyzed (answer count ids w) = analyzed w.
Proof.
  induction ids as [|i ids IH]; intros w; [done|].
  change (answer count (i :: ids) w) with (answer count ids (answer_one count w i)).
  rewrite IH. unfold answer_one.
  by destruct (tasks w !! i) as [[]|].
Qed.

Lemma answer_one_first count w name pre post :
  tasks w = pre ++ first_state name :: post →
  tasks (answer_one count w (length pre))
  = pre ++ Settled (Ok (resolved_count count name)) :: post.
Proof.
  intros Hw.
  assert (Hi : tasks w !! length pre = Some (first_state name)).
  { rewrite Hw, lookup_app_r by lia. by replace (length pre - length pre) with 0 by lia. }
  unfold answer_one. rewrite Hi. unfold first_state, resolved_count.
  destruct (truthy (ObjectPrototype_get (toLowerCase name))) eqn:Hp.
  - rewrite Hw. unfold first_state. by rewrite Hp.
  - simpl. rewrite obj_get_set_eq.
    2:{ intros Hk. by rewrite Hk in Hp. }
    rewrite Hw, insert_app_r_alt by lia.
    by replace (length pre - length pre) with 0 by lia.
Qed.

Lemma answer_tasks count l2 : ∀ l1 w,
  tasks w = map (λ n, Settled (Ok (resolved_count count n))) l1 ++ map first_state l2 →
  tasks (answer count (seq (length l1) (length l2)) w)
  = map (λ n, Settled (Ok (resolved_count count n))) (l1 ++ l2).
Proof.
  induction l2 as [|name l2 IH]; intros l1 w Hw; simpl.
  - by rewrite Hw, !app_nil_r.
  - replace (l1 ++ name :: l2) with ((l1 ++ [name]) ++ l2) by (by rewrite <- app_assoc).
    replace (S (length l1)) with (length (l1 ++ [name])) by (rewrite length_app; simpl; lia).
    apply IH. simpl in Hw. apply (answer_one_first count) in Hw.
    rewrite length_map in Hw. rewrite Hw, map_app, <- app_assoc. done.
Qed.

Lemma promise_all_resolved (vs : list jsval) :
  promise_all (map (λ v, Some (Ok v)) vs) = Some (Ok vs).
Proof. induction vs as [|v vs IH]; simpl; [done|]. by rewrite IH. Qed.

Lemma settled_all w (vs : list jsval) :
  tasks w = map (λ v, Settled (Ok v)) vs →
  map (settled w) (seq 0 (length vs)) = map (λ v, Some (Ok v)) vs.
Proof.
  intros Hw. apply list_eq. intros i.
  rewrite !lookup_map. unfold settled.
  destruct (decide (i < length vs)) as [Hlt|Hge].
  - rewrite lookup_seq_lt by done. simpl.
    rewrite Hw, lookup_map.
    destruct (lookup_lt_is_Some_2 vs i Hlt) as [v ->]. done.
  - rewrite lookup_seq_ge by lia. by rewrite lookup_ge_None_2 by lia.
Qed.

(** On a new instance whose analyzer answers, [transform] resolves. *)
Lemma transform_alone_resolves count data :
  (transform_alone count data).2
  = Some (Ok (transform_matches data
                (tokenizeNames_lookup (extractNamesToTokenize data)
                   (map (resolved_count count) (extractNamesToTokenize data))))).
Proof.
  unfold transform_alone, transform_calls, tokenizeNames_calls.
  destruct (start_calls_fresh (extractNamesToTokenize data) new_world [])
    as [Ht Hids]; [done|done|apply extractNamesToTokenize_NoDup|].
  destruct (fold_left start_call _ _) as [w ids]. simpl in *. subst ids.
  pose proof (answer_tasks count (extractNamesToTokenize data) [] w Ht) as Ha.
  simpl in Ha. unfold transform.
  set (names := extractNamesToTokenize data) in *.
  rewrite <- (length_map (resolved_count count) names).
  rewrite (settled_all _ (map (resolved_count count) names)).
  - by rewrite promise_all_resolved.
  - rewrite length_map, Ha. by rewrite map_map.
Qed.

(** X8. On a new instance the texts [transform] sends to the analyzer are
    the names [extractNamesToTokenize] returns, in their order, but for a
    name whose key is a member of [Object.prototype]: [tokenCache] inherits
    a value for it and no request is made. *)
Lemma transform_alone_analyzed count data :
  analyzed (transform_alone count data).1
  = filter (λ n, truthy (ObjectPrototype_get (toLowerCase n)) = false)
      (extractNamesToTokenize data).
Proof.
  unfold transform_alone, transform_calls, tokenizeNames_calls.
  pose proof (start_calls_analyzed (extractNamesToTokenize data) new_world []) as Ha.
  destruct (fold_left start_call _ _) as [w ids]. simpl in *.
  rewrite answer_analyzed. apply Ha; [done|done|apply extractNamesToTokenize_NoDup].
Qed.

(** *** The cache *)

(** Once a request has been answered with a count other than 0, a call for
    any name with the same key returns the cached count at once and sends
    nothing. *)
Lemma tokenizeNameWrap_cached w i name count name' :
  single_flight w →
  tasks w !! i = Some (Fetching name) →
  count ≠ 0 →
  toLowerCase name' = toLowerCase name →
  tokenizeNameWrap name' (set_task i (fetched name count w))
  = (set_task i (fetched name count w), Settled (Ok (JNumber (Z.of_nat count)))).
Proof.
  intros Hw Hi Hcount Hkey.
  assert (Hk : toLowerCase name ≠ "__proto__").
  { intros Hk. pose proof (sf_miss w Hw i name Hi) as Hm.
    rewrite Hk, obj_get_proto in Hm; [done|apply Hw]. }
  unfold tokenizeNameWrap. simpl. rewrite Hkey, obj_get_set_eq by done. simpl.
  destruct (Z.of_nat count =? 0)%Z eqn:Hz; [lia|done].
Qed.

Lemma tokenizeNameWrap_hit name w :
  truthy (obj_get (tokenCache w) (toLowerCase name)) = true →
  tokenizeNameWrap name w = (w, Settled (Ok (obj_get (tokenCache w) (toLowerCase name)))).
Proof. intros Hc. unfold tokenizeNameWrap. by rewrite Hc. Qed.

Lemma tokenizeNameWrap_wait name w :
  truthy (obj_get (tokenCache w) (toLowerCase name)) = false →
  truthy (obj_get (fetchQueue w) (toLowerCase name)) = true →
  tokenizeNameWrap name w = (w, Sleeping name).
Proof. intros Hc Hq. unfold tokenizeNameWrap. by rewrite Hc, Hq. Qed.

Lemma tokenizeNameWrap_miss name w :
  truthy (obj_get (tokenCache w) (toLowerCase name)) = false →
  truthy (obj_get (fetchQueue w) (toLowerCase name)) = false →
  tokenizeNameWrap name w
  = ({| tokenCache := tokenCache w;
        fetchQueue := obj_set (fetchQueue w) (toLowerCase name) (JBool true);
        tasks := tasks w;
        analyzed := analyzed w ++ [name];
        logged := logged w |}, Fetching name).
Proof. intros Hc Hq. unfold tokenizeNameWrap. by rewrite Hc, Hq. Qed.

(** A request answered with 0 tokens leaves nothing a later call can use:
    the call for any name with the same key sends a request again. *)
Lemma tokenizeNameWrap_zero_refetches w i name name' :
  single_flight w →
  tasks w !! i = Some (Fetching name) →
  toLowerCase name' = toLowerCase name →
  (tokenizeNameWrap name' (set_task i (fetched name 0 w))).2 = Fetching name'.
Proof.
  intros Hw Hi Hkey.
  assert (Hk : toLowerCase name ≠ "__proto__").
  { intros Hk. pose proof (sf_miss w Hw i name Hi) as Hm.
    rewrite Hk, obj_get_proto in Hm; [done|apply Hw]. }
  rewrite tokenizeNameWrap_miss; [done|simpl; rewrite Hkey..].
  - by rewrite obj_get_set_eq.
  - by rewrite obj_get_set_eq.
Qed.

(** A request that fails leaves its key stuck, *)
Lemma failed_stuck w i name message :
  single_flight w →
  tasks w !! i = Some (Fetching name) →
  stuck (toLowerCase name) (set_task i (failed name message w)).
Proof.
  intros Hw Hi. split; simpl.
  - by eapply sf_miss.
  - by eapply sf_flag.
  - intros j n Hj Heq. destruct (decide (i = j)) as [<-|Hne].
    + rewrite list_lookup_insert_eq in Hj by (by eapply lookup_lt_Some). done.
    + rewrite list_lookup_insert_ne in Hj by done.
      apply Hne. by eapply sf_one.
Qed.

(** a stuck key stays stuck whatever happens next, *)
Lemma stuck_step k e w w' : stuck k w → step e w = Some w' → stuck k w'.
Proof.
  intros [Hmiss Hflag Hidle].
  assert (Henter : ∀ name ts,
            (∀ j n, ts !! j = Some (Fetching n) →
               tasks w !! j = Some (Fetching n) ∨ (tokenizeNameWrap name w).2 = Fetching n) →
            stuck k {| tokenCache := tokenCache (tokenizeNameWrap name w).1;
                       fetchQueue := fetchQueue (tokenizeNameWrap name w).1;
                       tasks := ts;
                       analyzed := analyzed (tokenizeNameWrap name w).1;
                       logged := logged (tokenizeNameWrap name w).1 |}).
  { intros name ts Hts.
    destruct (tokenizeNameWrap_cases name w) as [[Hc E]|[(Hc & Hq & E)|(Hc & Hq & E)]];
      rewrite E in *; simpl in *.
    1,2: split; simpl; [done..|]; intros j n Hj; by destruct (Hts j n Hj) as [?|?]; eauto.
    assert (Hne : toLowerCase name ≠ k) by (intros <-; congruence).
    split; simpl; [done|by rewrite obj_get_set_ne|].
    intros j n Hj. destruct (Hts j n Hj) as [?|[= <-]]; eauto. }
  destruct e as [name|i|i count|i message]; simpl.
  - intros [= <-]. unfold add_task. rewrite tokenizeNameWrap_tasks.
    apply Henter. intros j n Hj.
    destruct (decide (j < length (tasks w))) as [Hlt|Hge].
    + left. by rewrite lookup_app_l in Hj.
    + right. rewrite lookup_app_r in Hj by lia.
      destruct (j - length (tasks w)); [by injection Hj|done].
  - destruct (tasks w !! i) as [[name|name|r]|] eqn:Hi; try done.
    intros [= <-]. unfold set_task. rewrite tokenizeNameWrap_tasks.
    apply Henter. intros j n Hj. destruct (decide (i = j)) as [<-|Hne].
    + right. rewrite list_lookup_insert_eq in Hj by (by eapply lookup_lt_Some).
      by injection Hj.
    + left. by rewrite list_lookup_insert_ne in Hj.
  - destruct (tasks w !! i) as [[name|name|r]|] eqn:Hi; try done.
    intros [= <-]. pose proof (Hidle i name Hi) as Hne.
    split; simpl; [by rewrite obj_get_set_ne..|].
    intros j n Hj. destruct (decide (i = j)) as [<-|Hne'].
    + rewrite list_lookup_insert_eq in Hj by (by eapply lookup_lt_Some). done.
    + rewrite list_lookup_insert_ne in Hj by done. eauto.
  - destruct (tasks w !! i) as [[name|name|r]|] eqn:Hi; try done.
    intros [= <-]. split; simpl; [done..|].
    intros j n Hj. destruct (decide (i = j)) as [<-|Hne'].
    + rewrite list_lookup_insert_eq in Hj by (by eapply lookup_lt_Some). done.
    + rewrite list_lookup_insert_ne in Hj by done. eauto.
Qed.

Lemma stuck_run k es : ∀ w w', stuck k w → run es w = Some w' → stuck k w'.
Proof.
  induction es as [|e es IH]; simpl; intros w w' Hw.
  - by intros [= <-].
  - destruct (step e w) as [w1|] eqn:He; [|done].
    intros Hr. eapply IH; [|done]. by eapply stuck_step.
Qed.

(** X4. Every call for a stuck key goes to sleep without sending anything:
    after a failure, no call for the name, made or woken at any later time,
    fetches again or settles. *)
Lemma no_retry_after_failure w i name message es w' name' :
  reachable w →
  tasks w !! i = Some (Fetching name) →
  run (Failure i message :: es) w = Some w' →
  toLowerCase name' = toLowerCase name →
  tokenizeNameWrap name' w' = (w', Sleeping name').
Proof.
  intros [es0 Hes0] Hi Hrun Hkey.
  assert (Hw : single_flight w) by (eapply single_flight_run; [apply single_flight_new|done]).
  simpl in Hrun. rewrite Hi in Hrun.
  pose proof (stuck_run _ _ _ _ (failed_stuck w i name message Hw Hi) Hrun) as [Hm Hf _].
  apply tokenizeNameWrap_wait; by rewrite Hkey.
Qed.

(** X5. Two calls in flight together for names with one key, the first
    answered with a count other than 0 before the second wakes up: both
    resolve to that count and one request has gone out. *)
Lemma concurrent_calls_share_fetch name1 name2 count :
  toLowerCase name1 = toLowerCase name2 →
  truthy (ObjectPrototype_get (toLowerCase name1)) = false →
  count ≠ 0 →
  ∃ w, run [Call name1; Call name2; Reply 0 count; Wake 1] new_world = Some w ∧
       tasks w = [ Settled (Ok (JNumber (Z.of_nat count)));
                   Settled (Ok (JNumber (Z.of_nat count))) ] ∧
       analyzed w = [name1].
Proof.
  intros Hkey Hp Hcount.
  assert (Hk : toLowerCase name1 ≠ "__proto__") by (intros Hk; by rewrite Hk in Hp).
  assert (Hz : truthy (JNumber (Z.of_nat count)) = true).
  { simpl. destruct (Z.of_nat count =? 0)%Z eqn:Hz; [lia|done]. }
  assert (Hc : truthy (obj_get (tokenCache new_world) (toLowerCase name1)) = false).
  { unfold obj_get. change (tokenCache new_world) with (∅ : gmap string jsval).
    rewrite lookup_empty. exact Hp. }
  assert (Hq : truthy (obj_get (fetchQueue new_world) (toLowerCase name1)) = false).
  { unfold obj_get. change (fetchQueue new_world) with (∅ : gmap string jsval).
    rewrite lookup_empty. exact Hp. }
  unfold run, step.
  rewrite (tokenizeNameWrap_miss name1 new_world) by done.
  unfold add_task at 1. simpl.
  rewrite tokenizeNameWrap_wait; simpl; rewrite <- ?Hkey;
    [|done|by rewrite obj_get_set_eq].
  simpl. unfold fetched, set_task. simpl.
  rewrite tokenizeNameWrap_hit; simpl; rewrite <- ?Hkey, !obj_get_set_eq by done;
    [|done].
  simpl. eexists. split; [done|]. done.
Qed.

(** *** The claims about [transform] and [tokenizeNameWrap] *)

(** C1. For every category with m include synonyms and n exclude synonyms,
    [transform] returns 1+m+n records: first the category's own record
    (not negated, its text the category name, [isExact] the category's
    [isExactMatch], carrying [categoryDisplay]), then one record per
    include synonym in input order, not negated, then one per exclude
    synonym in input order, negated. It does return on a new instance
    whose analyzer answers, and whatever it resolves to in any world has
    this form. *)
Theorem transform_expands data :
  (∀ count, ∃ ms, (transform_alone count data).2 = Some (Ok ms) ∧ expanded data ms) ∧
  (∀ ids w ms, transform data ids w = Some (Ok ms) → expanded data ms).
Proof.
  split.
  - intros count. eexists. split; [apply transform_alone_resolves|].
    apply transform_matches_expanded.
  - apply transform_resolved_expanded.
Qed.

(** C5, amended. When the analyze request of a call fails, that call is
    rejected with the failure, no other call is touched (the ones waiting
    on the key stay in their polling loop), and the cache is left as it
    was, without a usable entry for the key. *)
Theorem failure_reaches_fetcher w i name message :
  reachable w →
  tasks w !! i = Some (Fetching name) →
  ∃ w', step (Failure i message) w = Some w' ∧
        settled w' i = Some (Err message) ∧
        (∀ j, j ≠ i → tasks w' !! j = tasks w !! j) ∧
        tokenCache w' = tokenCache w ∧
        truthy (obj_get (tokenCache w') (toLowerCase name)) = false.
Proof.
  intros [es Hes] Hi.
  assert (Hw : single_flight w) by (eapply single_flight_run; [apply single_flight_new|done]).
  eexists. split; [simpl; by rewrite Hi|].
  unfold settled. simpl.
  rewrite list_lookup_insert_eq by (by eapply lookup_lt_Some).
  split; [done|]. split; [|split; [done|by eapply sf_miss]].
  intros j Hj. by rewrite list_lookup_insert_ne.
Qed.

End WithLowerCase.

Lemma transform_expands_witness :
  ∃ ms, transform (lower := ascii_lower) DUPES [0; 1] DUPES_world = Some (Ok ms) ∧ expanded DUPES ms.
Proof.
  assert (H : ∃ ms, transform (lower := ascii_lower) DUPES [0; 1] DUPES_world = Some (Ok ms))
    by (eexists; reflexivity).
  destruct H as [ms H]. exists ms. split; [exact H|].
  exact (proj2 (transform_expands (lower := ascii_lower) DUPES) [0; 1] DUPES_world ms H).
Defined.

Lemma failure_reaches_fetcher_witness :
  ∃ w, run (lower := ascii_lower) [Call "error"; Call "ERROR"] new_world = Some w ∧
       tasks w !! 0 = Some (Fetching "error") ∧
       ∃ w', step (lower := ascii_lower) (Failure 0 "Internal Server Error") w = Some w' ∧
             settled w' 0 = Some (Err "Internal Server Error") ∧
             (∀ j, j ≠ 0 → tasks w' !! j = tasks w !! j) ∧
             tokenCache w' = tokenCache w ∧
             truthy (obj_get (tokenCache w') (ascii_lower "error")) = false.
Proof.
  eexists. split; [reflexivity|]. split; [reflexivity|].
  apply (failure_reaches_fetcher (lower := ascii_lower) _ 0 "error" "Internal Server Error").
  - exists [Call "error"; Call "ERROR"]. reflexivity.
  - reflexivity.
Defined.

(** C2. On the category DUPES of the test suite the names sent to the
    analyzer are "DUPES" and "not dupe", as the claim says; but the records
    for "dupes" do not share the token count of the record for "DUPES":
    [lookup] has the one key "DUPES" for them, and [lookup["dupes"]] is
    [undefined]. *)
Theorem transform_DUPES (count : string → nat) :
  extractNamesToTokenize (lower := ascii_lower) DUPES = ["DUPES"; "not dupe"] ∧
  analyzed (transform_alone (lower := ascii_lower) count DUPES).1 = ["DUPES"; "not dupe"] ∧
  ∃ ms, (transform_alone (lower := ascii_lower) count DUPES).2 = Some (Ok ms) ∧
        map synonym ms = ["DUPES"; "dupes"; "not dupe"; "dupes"; "dupes"] ∧
        map tokenCount ms =
          [ JNumber (Z.of_nat (count "DUPES")); JUndefined;
            JNumber (Z.of_nat (count "not dupe")); JUndefined; JUndefined ].
Proof.
  split; [reflexivity|]. split; [reflexivity|].
  eexists. split; [reflexivity|]. split; reflexivity.
Qed.

(** C4. Two calls that differ in case only are in flight together, one
    fetching and one polling. When the analyzer finds no token in the name
    (a name made of stop words), the cached 0 does not pass
    [if (this.tokenCache[...])], and the polling call sends a second
    request when it wakes up: two requests for one key, not one. *)
Theorem concurrent_calls_zero_tokens :
  observe [Call "The"; Call "THE"] = Some ([Fetching "The"; Sleeping "THE"], ["The"]) ∧
  observe [Call "The"; Call "THE"; Reply 0 0; Wake 1]
  = Some ([Settled (Ok (JNumber 0)); Fetching "THE"], ["The"; "THE"]).
Proof. split; reflexivity. Qed.

(** C8. A name resolved to 0 tokens (the empty string of the test suite, a
    name made of stop words) is fetched again by the next call: the call
    does not return at once and a second request goes to the analyzer. *)
Theorem second_call_zero_tokens :
  observe [Call ""; Reply 0 0; Call ""]
  = Some ([Settled (Ok (JNumber 0)); Fetching ""], [""; ""]) ∧
  observe [Call "The"; Reply 0 0; Call "the"]
  = Some ([Settled (Ok (JNumber 0)); Fetching "the"], ["The"; "the"]).
Proof. split; reflexivity. Qed.

(** C5, as stated, fails: with "error" being fetched and "ERROR" waiting
    on the same key, the failure of the request rejects the first call
    only. The second call is still polling after its timer has run, and a
    third call, made after the failure, polls as well: the analyzer has
    been asked once. *)
Lemma failure_leaves_waiters_polling :
  observe [Call "error"; Call "ERROR"; Failure 0 "Internal Server Error"; Wake 1; Call "error"]
  = Some ([Settled (Err "Internal Server Error"); Sleeping "ERROR"; Sleeping "error"],
          ["error"]).
Proof. reflexivity. Qed.

(** *** More on the cache, the names and the token counts *)

Section MoreFacts.

Context {lower : LowerCase}.

Lemma tokenizeNameWrap_tokenCache name w :
  tokenCache (tokenizeNameWrap name w).1 = tokenCache w.
Proof.
  destruct (tokenizeNameWrap_cases name w) as [[_ ->]|[(_ & _ & ->)|(_ & _ & ->)]]; done.
Qed.

Lemma cache_stable_step k e w w' :
  single_flight w →
  truthy (obj_get (tokenCache w) k) = true →
  step e w = Some w' →
  obj_get (tokenCache w') k = obj_get (tokenCache w) k.
Proof.
  intros Hw Hk. destruct e as [name|i|i count|i message]; simpl.
  - intros [= <-]. simpl. by rewrite tokenizeNameWrap_tokenCache.
  - destruct (tasks w !! i) as [[name|name|r]|] eqn:Hi; try done.
    intros [= <-]. simpl. by rewrite tokenizeNameWrap_tokenCache.
  - destruct (tasks w !! i) as [[name|name|r]|] eqn:Hi; try done.
    intros [= <-]. simpl. apply obj_get_set_ne.
    intros <-. pose proof (sf_miss w Hw i name Hi). congruence.
  - destruct (tasks w !! i) as [[name|name|r]|] eqn:Hi; try done.
    by intros [= <-].
Qed.

Lemma cache_stable_run k es : ∀ w w',
  single_flight w →
  truthy (obj_get (tokenCache w) k) = true →
  run es w = Some w' →
  obj_get (tokenCache w') k = obj_get (tokenCache w) k.
Proof.
  induction es as [|e es IH]; simpl; intros w w' Hw Hk.
  - by intros [= <-].
  - destruct (step e w) as [w1|] eqn:He; [|done]. intros Hr.
    pose proof (cache_stable_step k e w w1 Hw Hk He) as H1.
    rewrite <- H1. apply IH; [by eapply single_flight_step| |done].
    by rewrite H1.
Qed.

(** X2. A usable cache entry is never overwritten: once [tokenCache] holds
    a truthy value for a key, it holds that value in every later world,
    whatever calls, timers, answers and failures come. *)
Theorem cached_count_never_changes w es w' k :
  reachable w →
  truthy (obj_get (tokenCache w) k) = true →
  run es w = Some w' →
  obj_get (tokenCache w') k = obj_get (tokenCache w) k.
Proof.
  intros [es0 Hes0]. apply cache_stable_run.
  eapply single_flight_run; [apply single_flight_new|done].
Qed.

(** X3. Once a request for a name has been answered with a count other
    than 0, a call for any casing of the name, made at any later time,
    returns that count at once and leaves the instance as it is: no
    request is sent. *)
Theorem answered_name_stays_cached w i name count es w' name' :
  reachable w →
  tasks w !! i = Some (Fetching name) →
  count ≠ 0 →
  run (Reply i count :: es) w = Some w' →
  toLowerCase name' = toLowerCase name →
  tokenizeNameWrap name' w' = (w', Settled (Ok (JNumber (Z.of_nat count)))).
Proof.
  intros [es0 Hes0] Hi Hcount Hrun Hkey.
  assert (Hw : single_flight w) by (eapply single_flight_run; [apply single_flight_new|done]).
  assert (Hk : toLowerCase name ≠ "__proto__").
  { intros Hk. pose proof (sf_miss w Hw i name Hi) as Hm.
    rewrite Hk, obj_get_proto in Hm; [done|apply Hw]. }
  simpl in Hrun. rewrite Hi in Hrun.
  assert (H1 : obj_get (tokenCache (set_task i (fetched name count w))) (toLowerCase name)
               = JNumber (Z.of_nat count)).
  { simpl. by rewrite obj_get_set_eq. }
  assert (Ht : truthy (JNumber (Z.of_nat count)) = true).
  { simpl. destruct (Z.of_nat count =? 0)%Z eqn:Hz; [lia|done]. }
  pose proof (cache_stable_run (toLowerCase name) es _ w'
                (single_flight_fetched name count i w Hw Hi)) as Hs.
  rewrite H1 in Hs. specialize (Hs Ht Hrun).
  rewrite tokenizeNameWrap_hit; rewrite Hkey, Hs; done.
Qed.

Lemma first_seen_subseteq texts : ∀ seen y, y ∈ first_seen seen texts → y ∈ texts.
Proof.
  induction texts as [|x texts IH]; simpl; intros seen y Hy; [done|].
  case_bool_decide.
  - right. by eapply IH.
  - apply elem_of_cons in Hy as [->|Hy]; [by left|]. right. by eapply IH.
Qed.

(** X6. The names [extractNamesToTokenize] returns are names of the
    category, no two of them agree up to case, every name of the category
    has one that agrees with it up to case, and the category's own name
    comes first. *)
Theorem extractNamesToTokenize_represents cat :
  let texts := Category.categoryName cat
                 :: map Synonym.name (Category.includeSynonyms cat)
                 ++ map Synonym.name (Category.excludeSynonyms cat) in
  NoDup (map toLowerCase (extractNamesToTokenize cat)) ∧
  (∀ y, y ∈ extractNamesToTokenize cat → y ∈ texts) ∧
  (∀ x, x ∈ texts → ∃ y, y ∈ extractNamesToTokenize cat ∧ toLowerCase y = toLowerCase x) ∧
  head (extractNamesToTokenize cat) = Some (Category.categoryName cat).
Proof.
  simpl. split; [apply extractNamesToTokenize_NoDup|].
  split; [|split].
  - intros y. rewrite extractNamesToTokenize_first_seen. apply first_seen_subseteq.
  - intros x Hx. apply (dedupe_covers _ []). by right.
  - by rewrite extractNamesToTokenize_first_seen.
Qed.

Lemma lookup_zip_map (f : string → jsval) x l : ∀ m : gmap string jsval,
  fold_left (λ ac curr, <[curr.1 := curr.2]> ac) (zip l (map f l)) m !! x
  = if bool_decide (x ∈ l) then Some (f x) else m !! x.
Proof.
  induction l as [|n l IH]; intros m; simpl; [done|].
  rewrite IH. destruct (decide (x ∈ l)) as [Hin|Hin].
  - rewrite !bool_decide_eq_true_2; [done|by right|done].
  - rewrite (bool_decide_eq_false_2 (x ∈ l)) by done.
    destruct (decide (x = n)) as [->|Hne].
    + rewrite bool_decide_eq_true_2 by left. apply lookup_insert_eq.
    + rewrite bool_decide_eq_false_2.
      * by apply lookup_insert_ne.
      * intros [?|?]%elem_of_cons; done.
Qed.

Lemma tokenizeNames_lookup_get (f : string → jsval) names x :
  obj_get (tokenizeNames_lookup names (map f names)) x
  = if bool_decide (x ∈ names) then f x else ObjectPrototype_get x.
Proof.
  unfold obj_get, tokenizeNames_lookup. rewrite lookup_zip_map.
  case_bool_decide; [done|]. by rewrite lookup_empty.
Qed.

Lemma transform_matches_tokenCount data lookup r :
  r ∈ transform_matches data lookup → tokenCount r = obj_get lookup (synonym r).
Proof.
  unfold transform_matches. intros [->|Hr]%elem_of_cons; [done|].
  apply elem_of_app in Hr as [Hr|Hr];
    apply list_elem_of_In, in_map_iff in Hr as (syn & <- & _); done.
Qed.

(** X7. On a new instance whose analyzer answers, every record of the
    array [transform] resolves to carries the count of its own text when
    that text is among the names sent for ([extractNamesToTokenize]), and
    otherwise what a plain object gives for a key it does not have,
    [undefined] but for the members of [Object.prototype]. The category's
    own record always carries its count. *)
Theorem transform_alone_tokenCounts count data :
  ∃ ms, (transform_alone count data).2 = Some (Ok ms) ∧
        (∀ r, r ∈ ms →
           tokenCount r
           = if bool_decide (synonym r ∈ extractNamesToTokenize data)
             then resolved_count count (synonym r)
             else ObjectPrototype_get (synonym r)) ∧
        (∃ c, ms !! 0 = Some c ∧
              tokenCount c = resolved_count count (Category.categoryName data)).
Proof.
  eexists. split; [apply transform_alone_resolves|]. split.
  - intros r Hr. rewrite (transform_matches_tokenCount _ _ _ Hr).
    apply tokenizeNames_lookup_get.
  - eexists. split; [done|]. simpl. rewrite tokenizeNames_lookup_get.
    rewrite bool_decide_eq_true_2; [done|].
    rewrite extractNamesToTokenize_first_seen. simpl. by left.
Qed.

(** X9. A request answered with 0 tokens caches nothing a call can use:
    the next call for any casing of the name, made at once, sends the
    text to the analyzer again. *)
Theorem zero_count_is_fetched_again w i name name' :
  reachable w →
  tasks w !! i = Some (Fetching name) →
  toLowerCase name' = toLowerCase name →
  ∃ w1, step (Reply i 0) w = Some w1 ∧
        obj_get (tokenCache w1) (toLowerCase name) = JNumber 0 ∧
        (tokenizeNameWrap name' w1).2 = Fetching name' ∧
        analyzed (tokenizeNameWrap name' w1).1 = analyzed w ++ [name'].
Proof.
  intros [es0 Hes0] Hi Hkey.
  assert (Hw : single_flight w) by (eapply single_flight_run; [apply single_flight_new|done]).
  assert (Hk : toLowerCase name ≠ "__proto__").
  { intros Hk. pose proof (sf_miss w Hw i name Hi) as Hm.
    rewrite Hk, obj_get_proto in Hm; [done|apply Hw]. }
  eexists. split; [simpl; by rewrite Hi|].
  split; [simpl; by rewrite obj_get_set_eq|].
  rewrite tokenizeNameWrap_miss; [done|simpl; rewrite Hkey..].
  - by rewrite obj_get_set_eq.
  - by rewrite obj_get_set_eq.
Qed.

End MoreFacts.

(** *** Failures *)

Section Failures.

Context {lower : LowerCase}.

Lemma tokenizeNameWrap_logged name w :
  logged (tokenizeNameWrap name w).1 = logged w.
Proof.
  destruct (tokenizeNameWrap_cases name w) as [[_ ->]|[(_ & _ & ->)|(_ & _ & ->)]]; done.
Qed.

Lemma run_logged es : ∀ w w',
  run es w = Some w' →
  ∃ names, length names = length (failures es) ∧
           logged w' = logged w
                       ++ zip_with (λ name message,
                                      "Could not analyze " +:+ name +:+ ". " +:+ message)
                                   names (failures es).
Proof.
  induction es as [|e es IH]; simpl; intros w w'.
  - intros [= <-]. exists []. by rewrite app_nil_r.
  - destruct (step e w) as [w1|] eqn:He; [|done]. intros Hr.
    destruct (IH _ _ Hr) as (names & Hlen & Hlog).
    destruct e as [name|i|i count|i message]; simpl in He.
    + injection He as <-. simpl in Hlog. rewrite tokenizeNameWrap_logged in Hlog. eauto.
    + destruct (tasks w !! i) as [[name|name|r]|] eqn:Hi; try done.
      injection He as <-. simpl in Hlog. rewrite tokenizeNameWrap_logged in Hlog. eauto.
    + destruct (tasks w !! i) as [[name|name|r]|] eqn:Hi; try done.
      injection He as <-. eauto.
    + destruct (tasks w !! i) as [[name|name|r]|] eqn:Hi; try done.
      injection He as <-. simpl in Hlog. exists (name :: names).
      split; [simpl; by rewrite Hlen|].
      rewrite Hlog, <- app_assoc. done.
Qed.

(** X10. The transformer logs when an analyze request fails and at no
    other time: after any run of a new instance the log holds one line
    for each failure, in the order of the failures, made of
    "Could not analyze ", a name, ". " and the failure's message. *)
Theorem one_log_line_per_failure es w :
  run es new_world = Some w →
  ∃ names, length names = length (failures es) ∧
           logged w = zip_with (λ name message,
                                  "Could not analyze " +:+ name +:+ ". " +:+ message)
                               names (failures es).
Proof. intros Hr. apply (run_logged es new_world w Hr). Qed.

Lemma promise_all_rejects ps m :
  promise_all ps = Some (Err m) → Some (Err m) ∈ ps.
Proof.
  induction ps as [|p ps IH]; simpl; [done|].
  destruct p as [[v|m']|].
  - destruct (promise_all ps) as [[vs|m'']|]; try done.
    intros [= ->]. right. by apply IH.
  - intros [= ->]. by left.
  - destruct (promise_all ps) as [[vs|m'']|]; try done.
    intros [= ->]. right. by apply IH.
Qed.

Lemma promise_all_rejected ps m :
  Some (Err m) ∈ ps → ∃ m', promise_all ps = Some (Err m').
Proof.
  induction ps as [|p ps IH]; [by intros ?%elem_of_nil|].
  intros [<-|Hin]%elem_of_cons; simpl; [eauto|].
  destruct (IH Hin) as [m' ->]. destruct p as [[v|m'']|]; eauto.
Qed.

(** X11. [transform] rejects exactly when one of the calls of
    [tokenizeNameWrap] it waits for has rejected, and the error it rejects
    with is the error of one of these calls; it builds no records then. *)
Theorem transform_rejects data ids w :
  ((∃ m, transform data ids w = Some (Err m))
   ↔ ∃ i m, i ∈ ids ∧ settled w i = Some (Err m)) ∧
  (∀ m, transform data ids w = Some (Err m) →
        ∃ i, i ∈ ids ∧ settled w i = Some (Err m)).
Proof.
  assert (Hm : ∀ m, transform data ids w = Some (Err m) →
               ∃ i, i ∈ ids ∧ settled w i = Some (Err m)).
  { intros m. unfold transform.
    destruct (promise_all (map (settled w) ids)) as [[vs|m']|] eqn:Hp; try done.
    intros [= ->]. apply promise_all_rejects in Hp.
    apply list_elem_of_In, in_map_iff in Hp as (i & Hi & Hin).
    exists i. split; [by apply list_elem_of_In|done]. }
  split; [|done]. split.
  - intros [m H]. destruct (Hm m H) as (i & ? & ?). eauto.
  - intros (i & m & Hin & Hi).
    destruct (promise_all_rejected (map (settled w) ids) m) as [m' Hp].
    { rewrite <- Hi. apply list_elem_of_In, in_map, list_elem_of_In, Hin. }
    exists m'. unfold transform. by rewrite Hp.
Qed.

End Failures.

Lemma at_most_one_outstanding_witness :
  ∃ w, run (lower := ascii_lower) [Call "Test"; Call "TEST"; Call "other"] new_world = Some w ∧
       tasks w !! 0 = Some (Fetching "Test") ∧
       ∀ j name, tasks w !! j = Some (Fetching name) → ascii_lower name = "test" → j = 0.
Proof.
  eexists. split; [reflexivity|]. split; [reflexivity|].
  intros j name Hj Hk. symmetry.
  refine (at_most_one_outstanding (lower := ascii_lower) _ 0 j "Test" name _ _ Hj _).
  - exists [Call "Test"; Call "TEST"; Call "other"]. reflexivity.
  - reflexivity.
  - unfold toLowerCase. rewrite Hk. reflexivity.
Defined.

Lemma no_retry_after_failure_witness :
  ∃ w, run (lower := ascii_lower) [Call "error"] new_world = Some w ∧
  ∃ w', run (lower := ascii_lower)
          [Failure 0 "Internal Server Error"; Call "Error"; Wake 1] w = Some w' ∧
        tokenizeNameWrap (lower := ascii_lower) "ERROR" w' = (w', Sleeping "ERROR").
Proof.
  eexists. split; [reflexivity|]. eexists. split; [reflexivity|].
  eapply (no_retry_after_failure (lower := ascii_lower) _ 0 "error"
            "Internal Server Error" [Call "Error"; Wake 1]).
  - exists [Call "error"]. reflexivity.
  - reflexivity.
  - reflexivity.
  - reflexivity.
Defined.

Lemma concurrent_calls_share_fetch_witness :
  ∃ w, run (lower := ascii_lower) [Call "Test"; Call "TEST"; Reply 0 2; Wake 1] new_world
       = Some w ∧
       tasks w = [ Settled (Ok (JNumber 2)); Settled (Ok (JNumber 2)) ] ∧
       analyzed w = ["Test"].
Proof.
  apply (concurrent_calls_share_fetch (lower := ascii_lower) "Test" "TEST" 2);
    [reflexivity|reflexivity|lia].
Defined.

Lemma cached_count_never_changes_witness :
  ∃ w, run (lower := ascii_lower) [Call "Test"; Reply 0 2] new_world = Some w ∧
  ∃ w', run (lower := ascii_lower) [Call "TEST"; Call "other"; Reply 2 5] w = Some w' ∧
        obj_get (tokenCache w') "test" = obj_get (tokenCache w) "test".
Proof.
  eexists. split; [reflexivity|]. eexists. split; [reflexivity|].
  eapply (cached_count_never_changes (lower := ascii_lower) _
            [Call "TEST"; Call "other"; Reply 2 5]).
  - exists [Call "Test"; Reply 0 2]. reflexivity.
  - reflexivity.
  - reflexivity.
Defined.

Lemma answered_name_stays_cached_witness :
  ∃ w, run (lower := ascii_lower) [Call "Test"] new_world = Some w ∧
  ∃ w', run (lower := ascii_lower) [Reply 0 2; Call "other"; Failure 1 "timeout"] w
        = Some w' ∧
        tokenizeNameWrap (lower := ascii_lower) "TEST" w' = (w', Settled (Ok (JNumber 2))).
Proof.
  eexists. split; [reflexivity|]. eexists. split; [reflexivity|].
  eapply (answered_name_stays_cached (lower := ascii_lower) _ 0 "Test" 2
            [Call "other"; Failure 1 "timeout"]).
  - exists [Call "Test"]. reflexivity.
  - reflexivity.
  - lia.
  - reflexivity.
  - reflexivity.
Defined.

Lemma zero_count_is_fetched_again_witness :
  ∃ w, run (lower := ascii_lower) [Call "The"] new_world = Some w ∧
  ∃ w1, step (lower := ascii_lower) (Reply 0 0) w = Some w1 ∧
        obj_get (tokenCache w1) (ascii_lower "The") = JNumber 0 ∧
        (tokenizeNameWrap (lower := ascii_lower) "THE" w1).2 = Fetching "THE" ∧
        analyzed (tokenizeNameWrap (lower := ascii_lower) "THE" w1).1 = analyzed w ++ ["THE"].
Proof.
  eexists. split; [reflexivity|].
  apply (zero_count_is_fetched_again (lower := ascii_lower) _ 0 "The" "THE").
  - exists [Call "The"]. reflexivity.
  - reflexivity.
  - reflexivity.
Defined.

Lemma one_log_line_per_failure_witness :
  ∃ w, run (lower := ascii_lower)
         [Call "error"; Call "Test"; Failure 0 "Internal Server Error"; Reply 1 1] new_world
       = Some w ∧
  ∃ names, length names = 1 ∧
           logged w = zip_with (λ name message,
                                  "Could not analyze " +:+ name +:+ ". " +:+ message)
                               names ["Internal Server Error"].
Proof.
  eexists. split; [reflexivity|].
  apply (one_log_line_per_failure (lower := ascii_lower)
           [Call "error"; Call "Test"; Failure 0 "Internal Server Error"; Reply 1 1]).
  reflexivity.
Defined.

End TransformerFacts.

(** ** ElasticBestbetsLoader *)

Module LoaderFacts.
Import Loader.

Lemma filter_none {A} (P : A → Prop) `{∀ x, Decision (P x)} (l : list A) :
  Forall (λ x, ¬ P x) l → filter P l = [].
Proof.
  induction 1 as [|x l Hx Hl IH]; [done|].
  rewrite filter_cons. destruct (decide (P x)); [done|]. apply IH.
Qed.

Lemma filter_some {A} (P : A → Prop) `{∀ x, Decision (P x)} (l : list A) :
  Exists P l → ∃ x l', filter P l = x :: l'.
Proof.
  induction 1 as [x l Hx|x l Hl IH].
  - rewrite filter_cons. destruct (decide (P x)); [eauto|done].
  - rewrite filter_cons. destruct (decide (P x)); [eauto|apply IH].
Qed.

(** The identifiers of the synonym documents: the category's id and the
    position in the array. *)
Example docArr_ids :
  map fst (imap synonym_doc research_ideas) = ["1045389_0"; "1045389_1"].
Proof. reflexivity. Qed.

(** C3. [end] repoints the alias at the instance's index before it asks
    for the cleanup, whatever the calls answer; and when the cleanup fails,
    [end] raises that failure having made no call after it, so the last
    alias operation is the one that set the alias to the new index. *)
Theorem end_swaps_before_cleanup self :
  (∀ f, calls (end_ self f) `prefix_of`
          [ optimizeIndex (indexName self);
            setAliasToSingleIndex (aliasName self) (indexName self);
            cleanupOldIndices (aliasName self) (daysToKeep self) (minIndexesToKeep self) ]) ∧
  (∀ m, let out := end_ self {| optimized := Ok (); aliased := Ok (); cleaned := Err m |} in
        calls out =
          [ optimizeIndex (indexName self);
            setAliasToSingleIndex (aliasName self) (indexName self);
            cleanupOldIndices (aliasName self) (daysToKeep self) (minIndexesToKeep self) ] ∧
        returned out = Err m ∧
        alias_target (aliasName self) (calls out) = Some (indexName self)) ∧
  (∀ name, indexName (begin self (Ok name)).2 = JString name).
Proof.
  split; [|split].
  - intros [[[]|m1] [[]|m2] [[]|m3]]; unfold end_; simpl.
    all: try (by eexists []).
    all: try (by eexists [_]).
    all: by eexists [_; _].
  - intros m. simpl. split; [done|]. split; [done|].
    unfold alias_target. simpl. by rewrite bool_decide_eq_true_2.
  - done.
Qed.

(** C6, amended. On a list that is not empty and has no record flagged
    [isCategory], [loadRecord] raises "Category <id> is missing its
    display" with the [contentID] of the first record, and calls nothing. *)
Theorem loadRecord_without_category self w first rest :
  Forall (λ m, truthy (isCategory m) = false) (first :: rest) →
  loadRecord self w (first :: rest)
  = {| calls := []; logged := [];
       returned := Err ("Category " +:+ contentID first +:+ " is missing its display") |}.
Proof.
  intros Hall. unfold loadRecord. rewrite filter_none; [done|].
  eapply Forall_impl; [done|]. simpl. intros m Hm. congruence.
Qed.

Lemma loadRecord_without_category_witness :
  loadRecord test_loader written (map unflagged research_ideas)
  = {| calls := []; logged := [];
       returned := Err "Category 1045389 is missing its display" |}.
Proof.
  apply (loadRecord_without_category test_loader written).
  repeat constructor.
Defined.

(** C6, as stated, fails: no record of [research_ideas] carries a category
    display, yet [loadRecord] raises nothing and makes both writes, the
    first record being flagged [isCategory]. *)
Lemma loadRecord_flagged_without_display :
  Forall (λ m, categoryDisplay m = JUndefined) research_ideas ∧
  returned (loadRecord test_loader written research_ideas) = Ok () ∧
  length (calls (loadRecord test_loader written research_ideas)) = 2.
Proof. split; [repeat constructor|]. split; reflexivity. Qed.

(** C7, amended. On a list that passes the two checks, once both writes
    have returned: if the bulk result lists updated documents or document
    errors, [loadRecord] raises an error that names the [contentID] of the
    first record; if it lists neither, [loadRecord] returns. *)
Theorem loadRecord_checks_bulk_result self w first rest res :
  Exists (λ m, truthy (isCategory m) = true) (first :: rest) →
  bulk w = Ok res →
  document w = Ok () →
  (updated res ≠ [] ∨ errors res ≠ [] →
     ∃ what, what ∈ [" appears to have duplicates"; " appears had document errors"] ∧
             returned (loadRecord self w (first :: rest))
             = Err ("Category " +:+ contentID first +:+ what)) ∧
  (updated res = [] ∧ errors res = [] →
     returned (loadRecord self w (first :: rest)) = Ok ()).
Proof.
  intros Hex Hb Hd. unfold loadRecord.
  destruct (filter_some _ _ Hex) as (c & l & ->). simpl.
  unfold promise_all. rewrite Hb, Hd.
  destruct (updated res) as [|u us], (errors res) as [|e es]; simpl.
  - split; [intros [?|?]; done|done].
  - split; [|intros [_ ?]; done]. intros _. eexists. split; [|done]. set_solver.
  - split; [|intros [? _]; done]. intros _. eexists. split; [|done]. set_solver.
  - split; [|intros [? _]; done]. intros _. eexists. split; [|done]. set_solver.
Qed.

Lemma loadRecord_checks_bulk_result_witness :
  ∃ what, what ∈ [" appears to have duplicates"; " appears had document errors"] ∧
          returned (loadRecord test_loader duplicated research_ideas)
          = Err ("Category " +:+ "1045389" +:+ what).
Proof.
  refine (proj1 (loadRecord_checks_bulk_result test_loader duplicated
                   research_ideas_category [research_ideas_synonym]
                   {| updated := ["1045389_0"]; errors := [] |} _ eq_refl eq_refl) _).
  - left. reflexivity.
  - left. discriminate.
Defined.

(** C7, as stated, fails: the bulk result lists an updated document, the
    write of the category display fails, and [loadRecord] raises that
    failure, which does not name the category. *)
Lemma loadRecord_raises_the_write_failure :
  returned (loadRecord test_loader
              {| bulk := Ok {| updated := ["1045389_0"]; errors := [] |};
                 document := Err "Request Timeout";
                 bulk_first := true |}
              research_ideas)
  = Err "Request Timeout" ∧
  ∀ what, "Request Timeout" ≠ "Category 1045389" +:+ what.
Proof. split; [reflexivity|]. intros what. discriminate. Qed.

(** *** What [loadRecord] writes, and when it returns *)

Lemma filter_flagged_nil (matches : list BestbetMatch) :
  filter (λ m, truthy (isCategory m) = true) matches = [] →
  ∀ cat, cat ∈ matches → truthy (isCategory cat) = true → False.
Proof.
  intros Hf cat Hin Hc.
  assert (H : cat ∈ filter (λ m, truthy (isCategory m) = true) matches)
    by (by apply list_elem_of_filter).
  rewrite Hf in H. by apply elem_of_nil in H.
Qed.

Lemma filter_flagged_cons (matches : list BestbetMatch) c l :
  filter (λ m, truthy (isCategory m) = true) matches = c :: l →
  c ∈ matches ∧ truthy (isCategory c) = true.
Proof.
  intros Hf.
  assert (H : c ∈ filter (λ m, truthy (isCategory m) = true) matches)
    by (rewrite Hf; left).
  apply list_elem_of_filter in H as [? ?]. done.
Qed.

(** X12. [loadRecord] returns without an error exactly when some record
    of the list is flagged [isCategory], both writes return, and the bulk
    result lists no updated document and no document error. *)
Theorem loadRecord_resolves self w matches :
  returned (loadRecord self w matches) = Ok () ↔
  (∃ cat, cat ∈ matches ∧ truthy (isCategory cat) = true) ∧
  (∃ res, bulk w = Ok res ∧ updated res = [] ∧ errors res = []) ∧
  document w = Ok ().
Proof.
  unfold loadRecord. destruct matches as [|first rest].
  { split; [done|]. intros [(cat & Hin & _) _]. by apply elem_of_nil in Hin. }
  destruct (filter _ (first :: rest)) as [|c l] eqn:Hf; simpl.
  { split; [done|]. intros [(cat & Hin & Hc) _].
    by destruct (filter_flagged_nil _ Hf cat Hin Hc). }
  apply filter_flagged_cons in Hf.
  unfold promise_all.
  destruct w as [[[us es]|mb] [[]|md] bf]; simpl; try (split; [done|]).
  - destruct us as [|u us], es as [|e es]; simpl; split; try done.
    + intros _. eauto 10.
    + intros (_ & (res & [= <-] & _ & ?) & _). done.
    + intros (_ & (res & [= <-] & ? & _) & _). done.
    + intros (_ & (res & [= <-] & ? & _) & _). done.
  - intros (_ & _ & ?). done.
  - intros (_ & (res & ? & _) & _). done.
  - intros (_ & _ & ?). done.
Qed.

Lemma calls_of_loadRecord self w matches :
  calls (loadRecord self w matches) = [] ∨
  ∃ cat,
    calls (loadRecord self w matches)
    = [ indexDocumentBulk (indexName self) "synonyms" (imap synonym_doc matches);
        indexDocument (indexName self) "categorydisplay"
          (contentID cat) (category_display cat) ].
Proof.
  unfold loadRecord. destruct matches as [|first rest]; [by left|].
  destruct (filter _ (first :: rest)) as [|c l]; [by left|]. simpl.
  right. exists c.
  destruct (promise_all w) as [[res []]|m]; [|done].
  destruct (updated res), (errors res); done.
Qed.

(** X13. The writes of [loadRecord] do not depend on how they are
    answered, and they go together: no call at all when no record is
    flagged [isCategory], and otherwise one bulk write with one synonym
    document per record of the list, in the order of the list, and one
    write of the display of the first flagged record under its
    [contentID], both to the instance's index. *)
Theorem loadRecord_requests self w matches :
  (∀ w', calls (loadRecord self w' matches) = calls (loadRecord self w matches)) ∧
  match head (filter (λ m, truthy (isCategory m) = true) matches) with
  | None => calls (loadRecord self w matches) = []
  | Some cat =>
      ∃ docs,
        calls (loadRecord self w matches)
        = [ indexDocumentBulk (indexName self) "synonyms" docs;
            indexDocument (indexName self) "categorydisplay"
              (contentID cat) (category_display cat) ] ∧
        length docs = length matches ∧
        ∀ i m, matches !! i = Some m → docs !! i = Some (synonym_doc i m)
  end.
Proof.
  assert (Hcalls : ∀ w0,
    calls (loadRecord self w0 matches)
    = match head (filter (λ m, truthy (isCategory m) = true) matches) with
      | None => []
      | Some cat =>
          [ indexDocumentBulk (indexName self) "synonyms" (imap synonym_doc matches);
            indexDocument (indexName self) "categorydisplay"
              (contentID cat) (category_display cat) ]
      end).
  { intros w0. unfold loadRecord. destruct matches as [|first rest]; [done|].
    destruct (filter _ (first :: rest)) as [|c l]; [done|]. simpl.
    destruct (promise_all w0) as [[res []]|m]; [|done].
    destruct (updated res), (errors res); done. }
  split; [intros w'; by rewrite !Hcalls|].
  rewrite Hcalls. destruct (head _) as [cat|]; [|done].
  eexists. split; [done|]. split; [by rewrite length_imap|].
  intros i m Hi. by rewrite list_lookup_imap, Hi.
Qed.

(** *** The identifiers of the synonym documents *)

Lemma pretty_N_go_no_underscore x : ∀ s,
  (∀ a b, s ≠ a +:+ "_" +:+ b) → ∀ a b, pretty_N_go x s ≠ a +:+ "_" +:+ b.
Proof.
  induction (N.lt_wf_0 x) as [x _ IH]; intros s Hs.
  assert (x = 0 ∨ 0 < x)%N as [->|?] by lia.
  - by rewrite pretty_N_go_0.
  - rewrite pretty_N_go_step by done. apply IH.
    { by apply N.div_lt. }
    intros [|c a] b; simpl.
    + unfold pretty_N_char. by repeat case_match.
    + intros [= _ Hs']. by eapply Hs.
Qed.

Lemma pretty_nat_no_underscore (n : nat) a b : pretty n ≠ a +:+ "_" +:+ b.
Proof.
  unfold pretty, pretty_nat, pretty, pretty_N. case_decide.
  - destruct a as [|c a]; simpl; [done|]. intros [= _ Ha]. by destruct a.
  - apply pretty_N_go_no_underscore. intros [|c a'] b'; done.
Qed.

Lemma split_at_last_underscore (a b p q : string) :
  (∀ x y, p ≠ x +:+ "_" +:+ y) →
  (∀ x y, q ≠ x +:+ "_" +:+ y) →
  a +:+ "_" +:+ p = b +:+ "_" +:+ q → a = b ∧ p = q.
Proof.
  intros Hp Hq. revert b.
  induction a as [|c a IH]; intros [|d b]; unfold String.append; fold String.append.
  - by intros [= ->].
  - intros [= _ H]. by destruct (Hp b q).
  - intros [= _ H]. by destruct (Hq a p).
  - intros [= -> H]. by destruct (IH _ H) as [-> ->].
Qed.

(** X14. The identifiers under which one call of [loadRecord] writes its
    synonym documents are pairwise distinct, whatever the [contentID]s of
    the records are: the position that ends an identifier tells them
    apart. *)
Theorem document_ids_distinct matches :
  NoDup (map fst (imap synonym_doc matches)).
Proof.
  apply NoDup_alt. intros i j id Hi Hj.
  rewrite list_lookup_fmap, list_lookup_imap in Hi, Hj.
  destruct (matches !! i) as [mi|]; [|done].
  destruct (matches !! j) as [mj|]; [|done].
  simpl in Hi, Hj. injection Hi as <-. injection Hj as Hj.
  apply split_at_last_underscore in Hj as [_ Hj]; try apply pretty_nat_no_underscore.
  symmetry. by apply (inj pretty).
Qed.

(** *** The log of [loadRecord] *)

(** X15. [loadRecord] logs nothing when it returns and nothing when it
    raises before writing. When it raises after the writes it logs one
    line, at error level, which names the [contentID] of the first record:
    the message it raises when the bulk result fails its check, and
    "Could not index synonyms for <id>" when a write failed. *)
Theorem loadRecord_logs self w matches :
  (calls (loadRecord self w matches) = [] → logged (loadRecord self w matches) = []) ∧
  (returned (loadRecord self w matches) = Ok () → logged (loadRecord self w matches) = []) ∧
  (∀ m, calls (loadRecord self w matches) ≠ [] →
        returned (loadRecord self w matches) = Err m →
        ∃ first line,
          head matches = Some first ∧
          logged (loadRecord self w matches) = [error line] ∧
          ((promise_all w = Err m ∧
            line = "Could not index synonyms for " +:+ contentID first) ∨
           (line = m ∧ ∃ what, m = "Category " +:+ contentID first +:+ what))).
Proof.
  unfold loadRecord. destruct matches as [|first rest]; [done|].
  destruct (filter _ (first :: rest)) as [|c l]; [done|]. simpl.
  destruct (promise_all w) as [[res []]|m']; simpl.
  - destruct (updated res), (errors res); simpl; split; try done; split; try done.
    all: intros m _ [= <-]; eexists _, _; split; [done|]; split; [done|]; right; eauto.
  - split; [done|]. split; [done|]. intros m _ [= <-].
    eexists _, _. split; [done|]. split; [done|]. by left.
Qed.

(** *** [end] *)

(** X16. [end] returns exactly when its three calls return. It asks for
    the alias to be set to the instance's index exactly when the index
    could be optimized, and for the cleanup exactly when the alias could
    be set as well. When it raises, it raises the failure of one of the
    three calls and the last line of its log is "Errors occurred during
    end process"; when it returns, it has logged nothing. *)
Theorem end_outcome self f :
  (returned (end_ self f) = Ok ()
   ↔ optimized f = Ok () ∧ aliased f = Ok () ∧ cleaned f = Ok ()) ∧
  (alias_target (aliasName self) (calls (end_ self f)) = Some (indexName self)
   ↔ optimized f = Ok ()) ∧
  (cleanupOldIndices (aliasName self) (daysToKeep self) (minIndexesToKeep self)
     ∈ calls (end_ self f)
   ↔ optimized f = Ok () ∧ aliased f = Ok ()) ∧
  (∀ m, returned (end_ self f) = Err m →
        Err m ∈ [optimized f; aliased f; cleaned f] ∧
        last (logged (end_ self f)) = Some (error "Errors occurred during end process")) ∧
  (returned (end_ self f) = Ok () → logged (end_ self f) = []).
Proof.
  destruct f as [[[]|m1] [[]|m2] [[]|m3]]; unfold end_, alias_target; simpl;
    rewrite ?bool_decide_eq_true_2 by done;
    rewrite ?elem_of_cons, ?elem_of_nil.
  all: split; [intuition (discriminate || done)|].
  all: split; [intuition (discriminate || done)|].
  all: split; [intuition (discriminate || done)|].
  all: split; [|done].
  all: intros m Hm; try done.
  all: injection Hm as <-; split; [|done].
  all: rewrite !elem_of_cons; eauto.
Qed.

(** *** The constructor *)

(** X17. The constructor accepts its options exactly when [aliasName] is
    a string that is not empty and each of [daysToKeep] and
    [minIndexesToKeep] is left out or is a number other than 0 (and not
    [NaN]); a negative number passes. The instance it builds has the
    alias, 10 and 2 for the numbers left out, and no index yet. *)
Theorem constructor_accepts estools mappings settings d k a :
  ((∃ self, constructor estools mappings settings d k a = Ok self)
   ↔ (∃ s, a = JString s ∧ s ≠ "") ∧
     (d = JUndefined ∨ ∃ n, d = JNumber n ∧ n ≠ 0%Z) ∧
     (k = JUndefined ∨ ∃ n, k = JNumber n ∧ n ≠ 0%Z)) ∧
  (∀ self, constructor estools mappings settings d k a = Ok self →
     a = JString (aliasName self) ∧
     indexName self = JBool false ∧
     (∃ n, daysToKeep self = JNumber n ∧ n ≠ 0%Z ∧ (d = JUndefined → n = 10%Z)) ∧
     (∃ n, minIndexesToKeep self = JNumber n ∧ n ≠ 0%Z ∧ (k = JUndefined → n = 2%Z))).
Proof.
  assert (Ha : not_a_string (default_to (JBool false) a) = false
               ↔ ∃ s, a = JString s ∧ s ≠ "").
  { rewrite not_a_string_false. destruct a; simpl; [|done..].
    split; intros (s & ? & ?); done. }
  assert (Hnum : ∀ v dflt, dflt ≠ 0%Z →
            not_a_number (default_to (JNumber dflt) v) = false
            ↔ v = JUndefined ∨ ∃ n, v = JNumber n ∧ n ≠ 0%Z).
  { intros v dflt Hd. rewrite not_a_number_false.
    destruct v; simpl; (split; [eauto|]); intros [?|?]; eauto; done. }
  pose proof (Hnum d 10%Z ltac:(done)) as Hd.
  pose proof (Hnum k 2%Z ltac:(done)) as Hk.
  unfold constructor.
  destruct (not_a_string _) eqn:Es.
  { split; [|done]. split; [by intros [? ?]|]. intros [H _]. apply Ha in H. done. }
  destruct (not_a_number (default_to (JNumber 10) d)) eqn:Ed.
  { split; [|done]. split; [by intros [? ?]|]. intros (_ & H & _). apply Hd in H. done. }
  destruct (not_a_number (default_to (JNumber 2) k)) eqn:Ek.
  { split; [|done]. split; [by intros [? ?]|]. intros (_ & _ & H). apply Hk in H. done. }
  split.
  - split; [|eauto]. intros _. split; [by apply Ha|]. split; [by apply Hd|by apply Hk].
  - intros self [= <-]. simpl.
    destruct (proj1 Ha eq_refl) as (s & -> & _).
    apply not_a_number_false in Ed as (n1 & E1 & ?).
    apply not_a_number_false in Ek as (n2 & E2 & ?).
    split; [done|]. split; [done|]. split.
    + exists n1. split; [done|]. split; [done|]. intros ->. simpl in E1. congruence.
    + exists n2. split; [done|]. split; [done|]. intros ->. simpl in E2. congruence.
Qed.

(** *** From [begin] to [end] *)

(** X18. Once [begin] has created an index, every call [loadRecord] and
    [end] make that reads or writes an index goes to the index created;
    and where [end] sets the alias, it sets the instance's alias to that
    index. *)
Theorem calls_go_to_the_created_index self name :
  let self' := (begin self (Ok name)).2 in
  (∀ w matches c i, c ∈ calls (loadRecord self' w matches) →
                    index_of c = Some i → i = JString name) ∧
  (∀ f c i, c ∈ calls (end_ self' f) → index_of c = Some i → i = JString name) ∧
  (∀ f a i, setAliasToSingleIndex a i ∈ calls (end_ self' f) →
            a = aliasName self ∧ i = JString name).
Proof.
  simpl. split; [|split].
  - intros w matches c i Hc.
    destruct (calls_of_loadRecord
                {| estools := estools self; mappings := mappings self;
                   settings := settings self; aliasName := aliasName self;
                   daysToKeep := daysToKeep self;
                   minIndexesToKeep := minIndexesToKeep self;
                   indexName := JString name |} w matches) as [E|(cat & E)];
      rewrite E in Hc.
    + by apply elem_of_nil in Hc.
    + rewrite !elem_of_cons, elem_of_nil in Hc.
      destruct Hc as [->|[->|[]]]; simpl; congruence.
  - intros [[[]|m1] [[]|m2] [[]|m3]] c i; unfold end_; simpl;
      rewrite ?elem_of_cons, ?elem_of_nil; intros Hc Hi;
      repeat (destruct Hc as [->|Hc]); try done; simpl in Hi; congruence.
  - intros [[[]|m1] [[]|m2] [[]|m3]] a i; unfold end_; simpl;
      rewrite ?elem_of_cons, ?elem_of_nil; intros Hc;
      repeat (destruct Hc as [Hc|Hc]); try done; by injection Hc as -> ->.
Qed.

(** X19. When the index cannot be created, [begin] raises the failure of
    [createTimestampedIndex] and leaves the instance as it was. On an
    instance that comes from the constructor the line it logs is
    "Failed to create index false": the name of an index is not known
    before [begin] has returned. *)
Theorem failed_begin_logs_false estools mappings settings d k a self m :
  constructor estools mappings settings d k a = Ok self →
  (begin self (Err m)).2 = self ∧
  returned (begin self (Err m)).1 = Err m ∧
  logged (begin self (Err m)).1
  = [ debug "ElasticBestbetsLoader:begin - Begin Begin";
      error "Failed to create index false" ].
Proof.
  unfold constructor.
  destruct (not_a_string _); [done|].
  destruct (not_a_number _); [done|].
  destruct (not_a_number _); [done|].
  by intros [= <-].
Qed.

Lemma failed_begin_logs_false_witness :
  ∃ self, constructor (estools test_loader) (JObject []) (JObject [])
            JUndefined JUndefined (JString "bestbets_v1") = Ok self ∧
          logged (begin self (Err "index_already_exists")).1
          = [ debug "ElasticBestbetsLoader:begin - Begin Begin";
              error "Failed to create index false" ].
Proof.
  eexists. split; [reflexivity|].
  apply (failed_begin_logs_false (estools test_loader) (JObject []) (JObject [])
           JUndefined JUndefined (JString "bestbets_v1") _ "index_already_exists" eq_refl).
Defined.

End LoaderFacts.

(** ** The two ways of checking a configuration *)

(** The tests 'works' of both [GetInstance]. *)
Example Transformer_GetInstance_works :
  TestEnv.Transformer_GetInstance Transformer.GOOD_STEP_CONFIG
  = Ok {| Transformer.esclient :=
            {| hosts := JArray [JString "http://example.org:9200"];
               apiVersion := Some "5.6";
               maxSockets := JNumber 80;
               keepAlive := true |};
          Transformer.analyzerSetting :=
            [ ("tokenizer", JString "standard");
              ("filter", JArray [JString "lowercase"; JString "unique"]) ] |}.
Proof. reflexivity. Qed.

Example Loader_GetInstance_works :
  TestEnv.Loader_GetInstance Loader.GOOD_STEP_CONFIG
  = Ok {| Loader.estools :=
            {| hosts := JArray [JString "http://localhost:9200"];
               apiVersion := None;
               maxSockets := JNumber 80;
               keepAlive := true |};
          Loader.mappings := JObject [];
          Loader.settings := TestEnv.settings_json;
          Loader.aliasName := "bestbets_v1";
          Loader.daysToKeep := JNumber 10;
          Loader.minIndexesToKeep := JNumber 2;
          Loader.indexName := JBool false |}.
Proof. reflexivity. Qed.

Lemma sublist_of_checks (b1 b2 b3 b4 : bool) (m1 m2 m3 m4 : string) :
  (if b1 then [m1] else []) ++ (if b2 then [m2] else [])
    ++ (if b3 then [m3] else []) ++ (if b4 then [m4] else [])
  `sublist_of` [m1; m2; m3; m4].
Proof.
  destruct b1, b2, b3, b4; simpl;
    repeat first [apply sublist_nil | apply sublist_skip | apply sublist_cons].
Qed.

Lemma elem_of_checks (b1 b2 b3 b4 : bool) (m1 m2 m3 m4 e : string) :
  e ∈ (if b1 then [m1] else []) ++ (if b2 then [m2] else [])
        ++ (if b3 then [m3] else []) ++ (if b4 then [m4] else [])
  ↔ e = m1 ∧ b1 = true ∨ e = m2 ∧ b2 = true ∨ e = m3 ∧ b3 = true ∨ e = m4 ∧ b4 = true.
Proof.
  destruct b1, b2, b3, b4; simpl; rewrite ?elem_of_cons, ?elem_of_nil;
    intuition (discriminate || eauto).
Qed.

(** C9, amended. [ValidateConfig] of either component reports an error for
    each of its checks that fails and nothing else, in the component's own
    order: hosts, settings path, analyzer, socket limit in the
    transformer, and mapping path, settings path, hosts, socket limit in
    the loader. So it returns [[]] on a configuration that passes its
    checks, exactly one error when one of the options it requires is left
    out of such a configuration, two when two are left out and three when
    three are. *)
Theorem ValidateConfig_reports config :
  Transformer.ValidateConfig config `sublist_of` Transformer.checks ∧
  Loader.ValidateConfig config `sublist_of` Loader.checks ∧
  (∀ e, e ∈ Transformer.ValidateConfig config ↔
        e = "eshosts is required for the transformer"
          ∧ truthy (Config.eshosts config) = false ∨
        e = "settingsPath is required for the transformer"
          ∧ not_a_string (Config.settingsPath config) = true ∨
        e = "You must supply the name of analyzer defined in the settings"
          ∧ not_a_string (Config.analyzer config) = true ∨
        e = "socketLimit must be a number greater than 0"
          ∧ bad_socketLimit (Config.socketLimit config) = true) ∧
  (∀ e, e ∈ Loader.ValidateConfig config ↔
        e = "mappingPath is required for the elastic loader"
          ∧ not_a_string (Config.mappingPath config) = true ∨
        e = "settingsPath is required for the elastic loader"
          ∧ not_a_string (Config.settingsPath config) = true ∨
        e = "eshosts is required for the elastic loader"
          ∧ truthy (Config.eshosts config) = false ∨
        e = "socketLimit must be a number greater than 0"
          ∧ bad_socketLimit (Config.socketLimit config) = true) ∧
  (Transformer.accepts config = true →
     Transformer.ValidateConfig config = [] ∧
     Transformer.ValidateConfig (Config.without_eshosts config)
     = ["eshosts is required for the transformer"] ∧
     Transformer.ValidateConfig (Config.without_settingsPath config)
     = ["settingsPath is required for the transformer"] ∧
     Transformer.ValidateConfig (Config.without_analyzer config)
     = ["You must supply the name of analyzer defined in the settings"] ∧
     Transformer.ValidateConfig (Config.without_eshosts (Config.without_settingsPath config))
     = [ "eshosts is required for the transformer";
         "settingsPath is required for the transformer" ] ∧
     Transformer.ValidateConfig (Config.without_eshosts (Config.without_analyzer config))
     = [ "eshosts is required for the transformer";
         "You must supply the name of analyzer defined in the settings" ] ∧
     Transformer.ValidateConfig (Config.without_settingsPath (Config.without_analyzer config))
     = [ "settingsPath is required for the transformer";
         "You must supply the name of analyzer defined in the settings" ] ∧
     Transformer.ValidateConfig
       (Config.without_eshosts (Config.without_settingsPath (Config.without_analyzer config)))
     = [ "eshosts is required for the transformer";
         "settingsPath is required for the transformer";
         "You must supply the name of analyzer defined in the settings" ]) ∧
  (Loader.accepts config = true →
     Loader.ValidateConfig config = [] ∧
     Loader.ValidateConfig (Config.without_mappingPath config)
     = ["mappingPath is required for the elastic loader"] ∧
     Loader.ValidateConfig (Config.without_settingsPath config)
     = ["settingsPath is required for the elastic loader"] ∧
     Loader.ValidateConfig (Config.without_eshosts config)
     = ["eshosts is required for the elastic loader"] ∧
     Loader.ValidateConfig (Config.without_mappingPath (Config.without_settingsPath config))
     = [ "mappingPath is required for the elastic loader";
         "settingsPath is required for the elastic loader" ] ∧
     Loader.ValidateConfig (Config.without_mappingPath (Config.without_eshosts config))
     = [ "mappingPath is required for the elastic loader";
         "eshosts is required for the elastic loader" ] ∧
     Loader.ValidateConfig (Config.without_settingsPath (Config.without_eshosts config))
     = [ "settingsPath is required for the elastic loader";
         "eshosts is required for the elastic loader" ] ∧
     Loader.ValidateConfig
       (Config.without_mappingPath (Config.without_settingsPath (Config.without_eshosts config)))
     = [ "mappingPath is required for the elastic loader";
         "settingsPath is required for the elastic loader";
         "eshosts is required for the elastic loader" ]).
Proof.
  split; [apply sublist_of_checks|]. split; [apply sublist_of_checks|].
  split; [|split].
  - intros e. unfold Transformer.ValidateConfig.
    rewrite elem_of_checks, negb_true_iff. done.
  - intros e. unfold Loader.ValidateConfig.
    rewrite elem_of_checks, negb_true_iff. done.
  - unfold Transformer.accepts, Loader.accepts, Transformer.ValidateConfig, Loader.ValidateConfig.
    split; intros Hok; repeat (apply andb_prop in Hok as [Hok ?]);
      repeat match goal with H : negb _ = true |- _ => apply negb_true_iff in H end;
      simpl; repeat match goal with H : _ = _ |- _ => rewrite H end; done.
Qed.

Lemma ValidateConfig_reports_witness :
  (Transformer.ValidateConfig Transformer.GOOD_STEP_CONFIG = [] ∧
   Transformer.ValidateConfig (Config.without_eshosts Transformer.GOOD_STEP_CONFIG)
   = ["eshosts is required for the transformer"] ∧
   Transformer.ValidateConfig (Config.without_settingsPath Transformer.GOOD_STEP_CONFIG)
   = ["settingsPath is required for the transformer"] ∧
   Transformer.ValidateConfig (Config.without_analyzer Transformer.GOOD_STEP_CONFIG)
   = ["You must supply the name of analyzer defined in the settings"] ∧
   Transformer.ValidateConfig
     (Config.without_eshosts (Config.without_settingsPath Transformer.GOOD_STEP_CONFIG))
   = [ "eshosts is required for the transformer";
       "settingsPath is required for the transformer" ] ∧
   Transformer.ValidateConfig
     (Config.without_eshosts (Config.without_analyzer Transformer.GOOD_STEP_CONFIG))
   = [ "eshosts is required for the transformer";
       "You must supply the name of analyzer defined in the settings" ] ∧
   Transformer.ValidateConfig
     (Config.without_settingsPath (Config.without_analyzer Transformer.GOOD_STEP_CONFIG))
   = [ "settingsPath is required for the transformer";
       "You must supply the name of analyzer defined in the settings" ] ∧
   Transformer.ValidateConfig
     (Config.without_eshosts
        (Config.without_settingsPath (Config.without_analyzer Transformer.GOOD_STEP_CONFIG)))
   = [ "eshosts is required for the transformer";
       "settingsPath is required for the transformer";
       "You must supply the name of analyzer defined in the settings" ]) ∧
  (Loader.ValidateConfig Loader.GOOD_STEP_CONFIG = [] ∧
   Loader.ValidateConfig (Config.without_mappingPath Loader.GOOD_STEP_CONFIG)
   = ["mappingPath is required for the elastic loader"] ∧
   Loader.ValidateConfig (Config.without_settingsPath Loader.GOOD_STEP_CONFIG)
   = ["settingsPath is required for the elastic loader"] ∧
   Loader.ValidateConfig (Config.without_eshosts Loader.GOOD_STEP_CONFIG)
   = ["eshosts is required for the elastic loader"] ∧
   Loader.ValidateConfig
     (Config.without_mappingPath (Config.without_settingsPath Loader.GOOD_STEP_CONFIG))
   = [ "mappingPath is required for the elastic loader";
       "settingsPath is required for the elastic loader" ] ∧
   Loader.ValidateConfig
     (Config.without_mappingPath (Config.without_eshosts Loader.GOOD_STEP_CONFIG))
   = [ "mappingPath is required for the elastic loader";
       "eshosts is required for the elastic loader" ] ∧
   Loader.ValidateConfig
     (Config.without_settingsPath (Config.without_eshosts Loader.GOOD_STEP_CONFIG))
   = [ "settingsPath is required for the elastic loader";
       "eshosts is required for the elastic loader" ] ∧
   Loader.ValidateConfig
     (Config.without_mappingPath
        (Config.without_settingsPath (Config.without_eshosts Loader.GOOD_STEP_CONFIG)))
   = [ "mappingPath is required for the elastic loader";
       "settingsPath is required for the elastic loader";
       "eshosts is required for the elastic loader" ]).
Proof.
  split.
  - apply (proj1 (proj2 (proj2 (proj2 (proj2
             (ValidateConfig_reports Transformer.GOOD_STEP_CONFIG)))))).
    reflexivity.
  - apply (proj2 (proj2 (proj2 (proj2 (proj2
             (ValidateConfig_reports Loader.GOOD_STEP_CONFIG)))))).
    reflexivity.
Defined.

(** C9, as stated, fails: with the hosts and the mapping path left out, the
    loader reports the mapping path first and the hosts second, against the
    order hosts, settings path, mapping path; and with the required
    [aliasName] left out it reports nothing. *)
Lemma Loader_reports_mapping_before_hosts :
  Loader.ValidateConfig (Config.without_mappingPath (Config.without_eshosts Loader.GOOD_STEP_CONFIG))
  = [ "mappingPath is required for the elastic loader";
      "eshosts is required for the elastic loader" ] ∧
  ¬ (Loader.ValidateConfig
       (Config.without_mappingPath (Config.without_eshosts Loader.GOOD_STEP_CONFIG))
     `sublist_of` stated_order) ∧
  Loader.ValidateConfig (Config.without_aliasName Loader.GOOD_STEP_CONFIG) = [].
Proof.
  split; [reflexivity|]. split; [|reflexivity].
  change (Loader.ValidateConfig _) with
    [ "mappingPath is required for the elastic loader";
      "eshosts is required for the elastic loader" ].
  unfold stated_order. intros H.
  apply sublist_cons_r in H as [H|(l' & [=] & _)].
  apply sublist_cons_r in H as [H|(l' & [=] & _)].
  apply sublist_cons_r in H as [H|(l' & [= <-] & H)].
  - apply sublist_cons_r in H as [H|(l' & [=] & _)].
    by apply sublist_nil_r in H.
  - apply sublist_cons_r in H as [H|(l' & [=] & _)].
    by apply sublist_nil_r in H.
Qed.

Section Environment.

Variable appRoot : string.
Variable path_join : string → string → string.
Variable require : string → option jsval.
Variable builtin : jsval → string → jsval.
Variable Client_error : Client → option string.

(** C10, amended. Where [ValidateConfig] reports an error, [GetInstance] of
    the same component raises one. In the loader it is the first error
    [ValidateConfig] reports, in the same words, unless a schema file whose
    path passed its check cannot be loaded before that check is reached.
    In the transformer it is the error of the first check, in the order
    hosts, socket limit, settings path, analyzer, that [ValidateConfig]
    reports, in the same words for the analyzer and the socket limit and
    with "for the elastic loader" for the hosts and the settings path;
    unless the client's constructor, called between the socket limit and
    the settings path, throws on the hosts, or the settings file cannot be
    loaded before the analyzer is checked. *)
Theorem GetInstance_raises_where_ValidateConfig_reports config :
  let mapFullPath := path_join appRoot (string_of (Config.mappingPath config)) in
  let settingsFullPath := path_join appRoot (string_of (Config.settingsPath config)) in
  let client :=
    {| hosts := Config.eshosts config;
       apiVersion := Some "5.6";
       maxSockets := maxSockets_of (Config.socketLimit config);
       keepAlive := true |} in
  (Loader.ValidateConfig config ≠ [] →
   ∃ m, Loader.GetInstance appRoot path_join require Client_error config = Err m ∧
        ((head (Loader.ValidateConfig config) = Some m ∧
          (m = "mappingPath is required for the elastic loader" ∨
           is_Some (require mapFullPath) ∧
           (m = "settingsPath is required for the elastic loader" ∨
            is_Some (require settingsFullPath)))) ∨
         (m = "mappingPath cannot be loaded: " +:+ mapFullPath ∧
          require mapFullPath = None ∧
          not_a_string (Config.mappingPath config) = false) ∨
         (m = "settingsPath cannot be loaded: " +:+ settingsFullPath ∧
          require settingsFullPath = None ∧
          is_Some (require mapFullPath) ∧
          not_a_string (Config.mappingPath config) = false ∧
          not_a_string (Config.settingsPath config) = false))) ∧
  (Transformer.ValidateConfig config ≠ [] →
   ∃ m, Transformer.GetInstance appRoot path_join require builtin Client_error config = Err m ∧
        ((∃ e, head (filter (λ e, e ∈ Transformer.ValidateConfig config)
                       Transformer.raise_order) = Some e ∧
               m = Transformer.raised_for e ∧
               (e = "eshosts is required for the transformer" ∨
                e = "socketLimit must be a number greater than 0" ∨
                Client_error client = None ∧
                (e = "settingsPath is required for the transformer" ∨
                 is_Some (require settingsFullPath)))) ∨
         (Client_error client = Some m ∧
          truthy (Config.eshosts config) = true ∧
          bad_socketLimit (Config.socketLimit config) = false) ∨
         (m = "settingsPath cannot be loaded: " +:+ settingsFullPath ∧
          require settingsFullPath = None ∧
          Client_error client = None ∧
          truthy (Config.eshosts config) = true ∧
          bad_socketLimit (Config.socketLimit config) = false ∧
          not_a_string (Config.settingsPath config) = false))).
Proof.
  simpl. split.
  - unfold Loader.ValidateConfig, Loader.GetInstance. intros Hne.
    destruct (not_a_string (Config.mappingPath config)); simpl in *.
    { eexists. split; [done|]. left. split; [done|]. by left. }
    destruct (require _) as [mappings|] eqn:Em;
      [|eexists; split; [done|]; right; left; done].
    destruct (not_a_string (Config.settingsPath config)); simpl in *.
    { eexists. split; [done|]. left. split; [done|]. right. split; [done|]. by left. }
    destruct (require (path_join appRoot (string_of (Config.settingsPath config))))
      as [settings|] eqn:Es;
      [|eexists; split; [done|]; right; right; done].
    destruct (truthy (Config.eshosts config)); simpl in *.
    + destruct (bad_socketLimit (Config.socketLimit config)); simpl in *; [|done].
      eexists. split; [done|]. left. split; [done|]. right. split; [done|]. by right.
    + eexists. split; [done|]. left. split; [done|]. right. split; [done|]. by right.
  - unfold Transformer.ValidateConfig, Transformer.GetInstance. intros Hne.
    destruct (truthy (Config.eshosts config)); simpl in *;
      [|eexists; split; [done|]; left; eexists; split; [done|]; split; [done|]; by left].
    destruct (bad_socketLimit (Config.socketLimit config)) eqn:Hs; simpl in *.
    { eexists. split; [done|]. left.
      exists "socketLimit must be a number greater than 0".
      split; [|split; [done|right; by left]].
      destruct (not_a_string (Config.settingsPath config)),
               (not_a_string (Config.analyzer config)); reflexivity. }
    destruct (Client_error _) as [message|] eqn:Ec;
      [eexists; split; [done|]; right; left; done|].
    destruct (not_a_string (Config.settingsPath config)); simpl in *.
    { eexists. split; [done|]. left.
      exists "settingsPath is required for the transformer".
      split; [|split; [done|right; right; split; [done|by left]]].
      destruct (not_a_string (Config.analyzer config)); reflexivity. }
    destruct (require _) as [settings|] eqn:Er;
      [|eexists; split; [done|]; right; right; done].
    destruct (not_a_string (Config.analyzer config)); simpl in *; [|done].
    eexists. split; [done|]. left.
    exists "You must supply the name of analyzer defined in the settings".
    split; [reflexivity|]. split; [done|]. right. right. split; [done|]. by right.
Qed.

End Environment.

Lemma GetInstance_raises_where_ValidateConfig_reports_witness :
  (∃ m, TestEnv.Loader_GetInstance (Config.without_eshosts Loader.GOOD_STEP_CONFIG) = Err m ∧
        head (Loader.ValidateConfig (Config.without_eshosts Loader.GOOD_STEP_CONFIG)) = Some m) ∧
  (∃ m, TestEnv.Transformer_GetInstance
          (Config.without_settingsPath Transformer.GOOD_STEP_CONFIG) = Err m ∧
        m = Transformer.raised_for "settingsPath is required for the transformer").
Proof.
  split.
  - destruct (proj1 (GetInstance_raises_where_ValidateConfig_reports
                       TestEnv.appRoot TestEnv.path_join TestEnv.require TestEnv.builtin
                       TestEnv.Client_error
                       (Config.without_eshosts Loader.GOOD_STEP_CONFIG)))
      as (m & Hm & [[Hh _]|[(_ & Hr & _)|(_ & Hr & _)]]).
    + discriminate.
    + exists m. split; [exact Hm|exact Hh].
    + discriminate Hr.
    + discriminate Hr.
  - destruct (proj2 (GetInstance_raises_where_ValidateConfig_reports
                       TestEnv.appRoot TestEnv.path_join TestEnv.require TestEnv.builtin
                       TestEnv.Client_error
                       (Config.without_settingsPath Transformer.GOOD_STEP_CONFIG)))
      as (m & Hm & [(e & He & Hme & _)|[(Hc & _)|(_ & _ & _ & _ & _ & Hp)]]).
    + discriminate.
    + exists m. split; [exact Hm|]. injection He as <-. exact Hme.
    + discriminate Hc.
    + discriminate Hp.
Defined.

(** C10, as stated, fails. With the hosts left out the transformer's
    [ValidateConfig] reports "eshosts is required for the transformer" and
    its [GetInstance] raises "eshosts is required for the elastic loader".
    With hosts the client cannot read and no settings path,
    [ValidateConfig] reports the settings path and [GetInstance] raises
    the error of the client's constructor. With a settings path that
    cannot be loaded, and with the loader's [aliasName] left out,
    [ValidateConfig] reports nothing and [GetInstance] raises. *)
Lemma GetInstance_differs_from_ValidateConfig :
  (Transformer.ValidateConfig (Config.without_eshosts Transformer.GOOD_STEP_CONFIG)
   = ["eshosts is required for the transformer"] ∧
   TestEnv.Transformer_GetInstance (Config.without_eshosts Transformer.GOOD_STEP_CONFIG)
   = Err "eshosts is required for the elastic loader") ∧
  (Transformer.ValidateConfig
     (Config.with_eshosts (JNumber 9200)
        (Config.without_settingsPath Transformer.GOOD_STEP_CONFIG))
   = ["settingsPath is required for the transformer"] ∧
   TestEnv.Transformer_GetInstance
     (Config.with_eshosts (JNumber 9200)
        (Config.without_settingsPath Transformer.GOOD_STEP_CONFIG))
   = Err ("Invalid hosts config. Expected a URL, an array of urls, "
          +:+ "a host config object, or an array of host config objects.")) ∧
  (Transformer.ValidateConfig
     (Config.with_settingsPath (JString "chicken") Transformer.GOOD_STEP_CONFIG) = [] ∧
   TestEnv.Transformer_GetInstance
     (Config.with_settingsPath (JString "chicken") Transformer.GOOD_STEP_CONFIG)
   = Err "settingsPath cannot be loaded: /bestbets-loader/chicken") ∧
  (Loader.ValidateConfig (Config.without_aliasName Loader.GOOD_STEP_CONFIG) = [] ∧
   TestEnv.Loader_GetInstance (Config.without_aliasName Loader.GOOD_STEP_CONFIG)
   = Err "aliasName is required for the elastic loader").
Proof. repeat split; reflexivity. Qed.

(** ** The instances [GetInstance] builds *)

Lemma constructor_analyzerSetting client tokenizer filter self :
  Transformer.constructor (Some client) tokenizer filter = Ok self →
  Transformer.esclient self = client ∧
  (∀ k v, (k, v) ∈ Transformer.analyzerSetting self →
          truthy v = true ∧ (k = "tokenizer" ∧ v = tokenizer ∨ k = "filter" ∧ v = filter)) ∧
  map fst (Transformer.analyzerSetting self) `sublist_of` ["tokenizer"; "filter"].
Proof.
  intros [= <-]. simpl. split; [done|].
  assert (Ht : ∀ v, truthy (default_to (JBool false) v) = truthy v) by (by intros []).
  assert (Hd : ∀ v, truthy v = true → default_to (JBool false) v = v) by (by intros []).
  rewrite !Ht.
  destruct (truthy tokenizer) eqn:Et, (truthy filter) eqn:Ef; simpl.
  all: rewrite ?(Hd _ Et), ?(Hd _ Ef).
  all: split; [intros k v; rewrite ?elem_of_cons, ?elem_of_nil;
               intros H; repeat (destruct H as [H|H]); try done;
               injection H as -> ->; eauto|].
  all: repeat first [apply sublist_nil_l | apply sublist_skip | apply sublist_cons].
Qed.

Section Instances.

Variable appRoot : string.
Variable path_join : string → string → string.
Variable require : string → option jsval.
Variable builtin : jsval → string → jsval.
Variable Client_error : Client → option string.

(** X20. An instance the transformer's [GetInstance] returns has a client
    for the hosts of the configuration, which are truthy, with API version
    5.6 and a positive number of sockets, the configured one or 80; the
    settings file could be loaded, and the analyzer setting holds nothing
    but the tokenizer and the filter, in this order, each only when the
    analyzer named in the configuration has a truthy value for it in
    [settings.analysis.analyzer] of that file. *)
Theorem Transformer_GetInstance_builds config self :
  Transformer.GetInstance appRoot path_join require builtin Client_error config = Ok self →
  hosts (Transformer.esclient self) = Config.eshosts config ∧
  truthy (Config.eshosts config) = true ∧
  apiVersion (Transformer.esclient self) = Some "5.6" ∧
  (∃ n, maxSockets (Transformer.esclient self) = JNumber n ∧ (0 < n)%Z ∧
        (truthy (Config.socketLimit config) = true → Config.socketLimit config = JNumber n) ∧
        (truthy (Config.socketLimit config) = false → n = 80%Z)) ∧
  map fst (Transformer.analyzerSetting self) `sublist_of` ["tokenizer"; "filter"] ∧
  ∃ settings s1 s2 s3 s4,
    require (path_join appRoot (string_of (Config.settingsPath config))) = Some settings ∧
    js_get builtin settings "settings" = Ok s1 ∧
    js_get builtin s1 "analysis" = Ok s2 ∧
    js_get builtin s2 "analyzer" = Ok s3 ∧
    js_get builtin s3 (string_of (Config.analyzer config)) = Ok s4 ∧
    ∀ k v, (k, v) ∈ Transformer.analyzerSetting self →
           js_get builtin s4 k = Ok v ∧ truthy v = true.
Proof.
  unfold Transformer.GetInstance.
  destruct (truthy (Config.eshosts config)) eqn:Eh; simpl; [|done].
  destruct (bad_socketLimit (Config.socketLimit config)) eqn:Es; [done|].
  destruct (Client_error _); [done|].
  destruct (not_a_string (Config.settingsPath config)); [done|].
  destruct (require _) as [settings|] eqn:Er; [|done].
  destruct (not_a_string (Config.analyzer config)); [done|].
  destruct (js_get builtin settings "settings") as [s1|] eqn:E1; simpl; [|done].
  destruct (truthy s1); simpl; [|done].
  destruct (js_get builtin s1 "analysis") as [s2|] eqn:E2; simpl; [|done].
  destruct (truthy s2); simpl; [|done].
  destruct (js_get builtin s2 "analyzer") as [s3|] eqn:E3; simpl; [|done].
  destruct (truthy s3); simpl; [|done].
  destruct (js_get builtin s3 _) as [s4|] eqn:E4; simpl; [|done].
  destruct (truthy s4); simpl; [|done].
  destruct (js_get builtin s4 "tokenizer") as [tokenizer|] eqn:Et; simpl; [|done].
  destruct (js_get builtin s4 "filter") as [filter|] eqn:Ef; simpl; [|done].
  intros H. apply constructor_analyzerSetting in H as (Hc & Hv & Hk).
  rewrite Hc. simpl. split; [done|]. split; [done|]. split; [done|].
  split; [by apply maxSockets_of_positive|]. split; [done|].
  exists settings, s1, s2, s3, s4. repeat (split; [done|]).
  intros k v Hin. destruct (Hv k v Hin) as [Ht [[-> ->]|[-> ->]]]; done.
Qed.

(** X21. An instance the loader's [GetInstance] returns holds the
    mappings and the settings loaded from the two paths of the
    configuration, tools for its hosts, which are truthy, with a positive
    number of sockets, the configured one or 80, the alias of the
    configuration, which is a string that is not empty, numbers other than
    0 for the days and the indexes to keep, and no index yet. *)
Theorem Loader_GetInstance_builds config self :
  Loader.GetInstance appRoot path_join require Client_error config = Ok self →
  require (path_join appRoot (string_of (Config.mappingPath config)))
    = Some (Loader.mappings self) ∧
  require (path_join appRoot (string_of (Config.settingsPath config)))
    = Some (Loader.settings self) ∧
  hosts (Loader.estools self) = Config.eshosts config ∧
  truthy (Config.eshosts config) = true ∧
  (∃ n, maxSockets (Loader.estools self) = JNumber n ∧ (0 < n)%Z ∧
        (truthy (Config.socketLimit config) = true → Config.socketLimit config = JNumber n) ∧
        (truthy (Config.socketLimit config) = false → n = 80%Z)) ∧
  Config.aliasName config = JString (Loader.aliasName self) ∧
  Loader.aliasName self ≠ "" ∧
  (∃ d k, Loader.daysToKeep self = JNumber d ∧ d ≠ 0%Z ∧
          Loader.minIndexesToKeep self = JNumber k ∧ k ≠ 0%Z) ∧
  Loader.indexName self = JBool false.
Proof.
  unfold Loader.GetInstance, Loader.constructor.
  destruct (not_a_string (Config.mappingPath config)); [done|].
  destruct (require _) as [mappings|] eqn:Em; [|done].
  destruct (not_a_string (Config.settingsPath config)); [done|].
  destruct (require (path_join appRoot (string_of (Config.settingsPath config))))
    as [settings|] eqn:Er; [|done].
  destruct (truthy (Config.eshosts config)) eqn:Eh; simpl; [|done].
  destruct (bad_socketLimit (Config.socketLimit config)) eqn:Es; [done|].
  destruct (Client_error _); [done|].
  destruct (not_a_string _) eqn:Ea; [done|].
  destruct (not_a_number (default_to (JNumber 10) _)) eqn:Ed; [done|].
  destruct (not_a_number (default_to (JNumber 2) _)) eqn:Ek; [done|].
  intros [= <-]. simpl.
  apply not_a_string_false in Ea as (s & Ea & Hs).
  apply not_a_number_false in Ed as (d & -> & Hd).
  apply not_a_number_false in Ek as (k & -> & Hk).
  repeat (split; [done|]).
  split; [by apply maxSockets_of_positive|].
  destruct (Config.aliasName config); simpl in Ea; try done.
  injection Ea as ->. eauto 10.
Qed.

End Instances.

Lemma Transformer_GetInstance_builds_witness :
  ∃ self, TestEnv.Transformer_GetInstance Transformer.GOOD_STEP_CONFIG = Ok self ∧
          maxSockets (Transformer.esclient self) = JNumber 80 ∧
          map fst (Transformer.analyzerSetting self) `sublist_of` ["tokenizer"; "filter"].
Proof.
  eexists. split; [reflexivity|].
  pose proof (Transformer_GetInstance_builds
                TestEnv.appRoot TestEnv.path_join TestEnv.require TestEnv.builtin
                TestEnv.Client_error Transformer.GOOD_STEP_CONFIG _ eq_refl) as (_ & _ & _ & _ & Hk & _).
  split; [reflexivity|exact Hk].
Defined.

Lemma Loader_GetInstance_builds_witness :
  ∃ self, TestEnv.Loader_GetInstance Loader.GOOD_STEP_CONFIG = Ok self ∧
          Loader.aliasName self ≠ "" ∧
          Loader.indexName self = JBool false.
Proof.
  eexists. split; [reflexivity|].
  pose proof (Loader_GetInstance_builds
                TestEnv.appRoot TestEnv.path_join TestEnv.require TestEnv.Client_error
                Loader.GOOD_STEP_CONFIG _ eq_refl) as (_ & _ & _ & _ & _ & _ & Ha & _ & Hi).
  split; [exact Ha|exact Hi].
Defined.

(** ** CDEBestbetsSource *)

Module CDESourceFacts.
Import CDESource.

Lemma ascii_toLowerCase_idemp c :
  ascii_toLowerCase (ascii_toLowerCase c) = ascii_toLowerCase c.
Proof. destruct c as [[] [] [] [] [] [] [] []]; reflexivity. Qed.

Lemma ascii_lower_idemp s : ascii_lower (ascii_lower s) = ascii_lower s.
Proof.
  induction s as [|c s IH]; simpl; [done|].
  by rewrite ascii_toLowerCase_idemp, IH.
Qed.

(** X22. In the CDE source the two ways of checking a configuration
    agree: [GetInstance] raises on a configuration exactly when
    [ValidateConfig] reports an error, and it raises the first error
    [ValidateConfig] reports, in the same words. When it returns, the
    client has the hostname of the configuration, which is truthy, and the
    agent a positive number of sockets, the configured one or 80. *)
Theorem CDESource_GetInstance_agrees config :
  (∀ m, GetInstance (Some config) = Err m ↔ head (ValidateConfig config) = Some m) ∧
  ((∃ self, GetInstance (Some config) = Ok self) ↔ ValidateConfig config = []) ∧
  (∀ self, GetInstance (Some config) = Ok self →
     client_hostname self = hostname config ∧
     truthy (hostname config) = true ∧
     ∃ n, agent_maxSockets self = JNumber n ∧ (0 < n)%Z ∧
          (truthy (socketLimit config) = true → socketLimit config = JNumber n) ∧
          (truthy (socketLimit config) = false → n = 80%Z)).
Proof.
  unfold GetInstance, ValidateConfig.
  destruct (truthy (hostname config)) eqn:Eh; simpl.
  - destruct (bad_socketLimit (socketLimit config)) eqn:Es; simpl.
    + split; [intros m; split; congruence|]. split; [|done].
      split; [by intros [? ?]|done].
    + split; [done|]. split; [split; eauto|].
      intros self [= <-]. simpl. split; [done|]. split; [done|].
      by apply maxSockets_of_positive.
  - split; [intros m; split; congruence|]. split; [|done].
    split; [by intros [? ?]|done].
Qed.

(** X23. Given a string, [getLang] never raises and returns "en", "es"
    or the empty string; the casing of the string makes no difference,
    and a code it returned it returns again for that code. *)
Theorem getLang_codes s :
  ∃ code, getLang (lower := ascii_lower) (JString s) = Ok code ∧
          code ∈ [""; "en"; "es"] ∧
          getLang (lower := ascii_lower) (JString (ascii_lower s)) = Ok code ∧
          getLang (lower := ascii_lower) (JString code) = Ok code.
Proof.
  assert (Hc : ∀ t, ascii_lower t ≠ "" →
            getLang (lower := ascii_lower) (JString t)
            = if bool_decide (ascii_lower t ∈ ["en"; "eng"; "en-us"]) then Ok "en"
              else if bool_decide (ascii_lower t ∈ ["es"; "esp"; "es-us"]) then Ok "es"
              else Ok "").
  { intros t Ht. unfold getLang. destruct t as [|c t]; [done|]. done. }
  destruct (decide (ascii_lower s = "")) as [He|Hne].
  - assert (s = "") as -> by (by destruct s).
    exists "". split; [done|]. split; [set_solver|done].
  - rewrite (Hc s Hne), (Hc (ascii_lower s)) by (by rewrite ascii_lower_idemp).
    rewrite ascii_lower_idemp.
    destruct (bool_decide (ascii_lower s ∈ ["en"; "eng"; "en-us"])).
    { exists "en". split; [done|]. split; [set_solver|done]. }
    destruct (bool_decide (ascii_lower s ∈ ["es"; "esp"; "es-us"])).
    { exists "es". split; [done|]. split; [set_solver|done]. }
    exists "". split; [done|]. split; [set_solver|done].
Qed.

End CDESourceFacts.
